(** * Simulador de Custo de Viagem: the two calculators of [app.py]

    A shallow embedding of [formatar_moeda], [formatar_numero],
    [calcular_combustivel], [calcular_custos_completos] and of the chart's
    parsing of the formatted money strings, with the properties of the
    specification stated and proved (or refuted) over it.

    The calculators are embedded twice.

    - Over exact rationals ([Q]): [*], [+] and [/] are the exact operations.
      This is the program with its rounding error left out.  It carries the
      properties that no rounding can change: the validation gate, the
      divisors, the formatter and its reading back, texts that are equal
      because they format the same number.  Division raises
      [ZeroDivisionError] on a zero divisor and every division leaves its
      divisor in a log.

    - Over binary64 (module [B64]): the arithmetic of Python's [float], every
      operation rounded to the nearest double with ties to even, signed
      zeros, infinities and NaN.  This is what decides which cent is printed;
      it carries every property about the values or texts the calculators
      return.  An [int] argument stands for the double of the same value,
      which is exact up to 2^53.

    Strings.  [str] is [string]; the built-ins [str.replace], [float] and the
    format specifications [,.2f] and [.0f] are written out in module [Py].
    [Py.upper] is [str.upper] on ASCII text; the binary64 trip calculator
    takes [str.upper] as a parameter. *)

From Stdlib Require Import QArith Qabs Qround Qpower ZArith String Ascii List Bool Lia Lqa.
Import ListNotations.

Open Scope string_scope.
Open Scope Q_scope.

(** ** Python built-ins used by the program *)

Module Py.

(** [s.replace(old, new)]: left to right, non-overlapping.  After a match
    the next [length old - 1] characters are skipped.  With an empty [old],
    [new] goes before every character and at the end. *)
Fixpoint replace_from (old new : string) (skip : nat) (s : string) : string :=
  match s with
  | EmptyString => EmptyString
  | String c s' =>
      match skip with
      | S k => replace_from old new k s'
      | O =>
          if String.prefix old s
          then new ++ replace_from old new (String.length old - 1) s'
          else String c (replace_from old new O s')
      end
  end.

Fixpoint interleave (new s : string) : string :=
  match s with
  | EmptyString => new
  | String c s' => new ++ String c (interleave new s')
  end.

Definition replace (old new s : string) : string :=
  match old with
  | EmptyString => interleave new s
  | _ => replace_from old new O s
  end.

(** [s.upper()] on the ASCII letters; other bytes are kept. *)
Definition upper_char (c : ascii) : ascii :=
  let n := nat_of_ascii c in
  if (97 <=? n)%nat && (n <=? 122)%nat then ascii_of_nat (n - 32) else c.

Fixpoint upper (s : string) : string :=
  match s with
  | EmptyString => EmptyString
  | String c s' => String (upper_char c) (upper s')
  end.

(** Decimal digits. *)
Definition digit_char (d : Z) : ascii := ascii_of_nat (48 + Z.to_nat d).

Definition is_digit (c : ascii) : bool :=
  let n := nat_of_ascii c in (48 <=? n)%nat && (n <=? 57)%nat.

Definition digit_value (c : ascii) : Z := Z.of_nat (nat_of_ascii c) - 48.

(** Exactly [k] digits of [n], least significant last, zero padded. *)
Fixpoint digits_fixed (k : nat) (n : Z) (acc : string) : string :=
  match k with
  | O => acc
  | S k' => digits_fixed k' (n / 10) (String (digit_char (n mod 10)) acc)
  end.

(** The digits of [n >= 0] without leading zeros ("0" for zero). *)
Fixpoint digits_aux (fuel : nat) (n : Z) (acc : string) : string :=
  match fuel with
  | O => acc
  | S f =>
      let acc' := String (digit_char (n mod 10)) acc in
      if (n <? 10)%Z then acc' else digits_aux f (n / 10) acc'
  end.

Definition digits (n : Z) : string :=
  digits_aux (S (Z.to_nat (Z.log2 n))) n EmptyString.

(** The [,] option of a format specification: a separator before every
    group of three digits, counted from the right. *)
Fixpoint group_by3 (sep : string) (s : string) : string :=
  match s with
  | EmptyString => EmptyString
  | String c s' =>
      String c
        (if negb (String.length s' =? 0)%nat && (String.length s' mod 3 =? 0)%nat
         then sep ++ group_by3 sep s'
         else group_by3 sep s')
  end.

Definition group3 (s : string) : string := group_by3 "," s.

(** Nearest integer, ties to the even one. *)
Definition round_half_even (q : Q) : Z :=
  let fl := Qfloor q in
  match (2 * (q - inject_Z fl) ?= 1)%Q with
  | Lt => fl
  | Gt => (fl + 1)%Z
  | Eq => if Z.even fl then fl else (fl + 1)%Z
  end.

(** [format(v, ",.<prec>f")] when [grouping], [format(v, ".<prec>f")]
    otherwise: sign, integer digits, and [prec] decimals after a dot. *)
Definition format_f (grouping : bool) (prec : nat) (v : Q) : string :=
  let scale := (10 ^ Z.of_nat prec)%Z in
  let n := round_half_even (Qabs v * inject_Z scale) in
  let ip := digits (n / scale) in
  (if Qlt_le_dec v 0 then "-" else "")
  ++ (if grouping then group3 ip else ip)
  ++ (match prec with
      | O => ""
      | _ => String "." (digits_fixed prec (n mod scale) "")
      end).

(** [float(s)] on plain decimal literals: an optional sign, digits, and
    optionally a dot and digits, with at least one digit.  [None] stands
    for [ValueError]; exponents, [inf], [nan], blanks and underscores are
    not part of the model. *)
Fixpoint digits_value (s : string) (acc : Z) : option Z :=
  match s with
  | EmptyString => Some acc
  | String c s' =>
      if is_digit c then digits_value s' (10 * acc + digit_value c)%Z else None
  end.

Fixpoint split_dot (s : string) : string * option string :=
  match s with
  | EmptyString => (EmptyString, None)
  | String c s' =>
      if Ascii.eqb c "." then (EmptyString, Some s')
      else let (a, b) := split_dot s' in (String c a, b)
  end.

Definition unsigned_float (s : string) : option Q :=
  let (ip, fp) := split_dot s in
  let fp' := match fp with Some f => f | None => EmptyString end in
  if (String.length ip + String.length fp' =? 0)%nat then None
  else
    match digits_value ip 0, digits_value fp' 0 with
    | Some i, Some f =>
        Some (inject_Z i
              + inject_Z f / inject_Z (10 ^ Z.of_nat (String.length fp')))
    | _, _ => None
    end.

Definition float (s : string) : option Q :=
  match s with
  | String "-" s' => option_map Qopp (unsigned_float s')
  | String "+" s' => unsigned_float s'
  | _ => unsigned_float s
  end.

End Py.

(** ** Runs: the divisors met, and how the call ends *)

Inductive exn : Type := ZeroDivisionError.

Inductive outcome (A : Type) : Type :=
| Raised (e : exn)
| Returned (a : A).
Arguments Raised {A} e.
Arguments Returned {A} a.

Record run (A : Type) : Type := Run { divisors : list Q; ending : outcome A }.
Arguments Run {A} divisors ending.
Arguments divisors {A} r.
Arguments ending {A} r.

Definition ret {A : Type} (a : A) : run A := Run [] (Returned a).

Definition bind {A B : Type} (m : run A) (f : A -> run B) : run B :=
  match ending m with
  | Raised e => Run (divisors m) (Raised e)
  | Returned a => let r := f a in Run (divisors m ++ divisors r) (ending r)
  end.

Notation "x <- m ;; k" := (bind m (fun x => k))
  (at level 61, m at next level, right associativity).

(** [x / y] *)
Definition div (x y : Q) : run Q :=
  Run [y] (if Qeq_bool y 0 then Raised ZeroDivisionError else Returned (x / y)).

(** [x <= 0] *)
Definition nonpositive (x : Q) : bool := Qle_bool x 0.

(** ** Funções auxiliares *)

(** [f"R$ {valor:,.2f}".replace(",", "X").replace(".", ",").replace("X", ".")] *)
Definition formatar_moeda (valor : Q) : string :=
  Py.replace "X" "."
    (Py.replace "." ","
       (Py.replace "," "X" ("R$ " ++ Py.format_f true 2 valor))).

(** [f"{valor:,.2f}".replace(",", "X").replace(".", ",").replace("X", ".") + sufixo] *)
Definition formatar_numero (valor : Q) (sufixo : string) : string :=
  Py.replace "X" "."
    (Py.replace "." ","
       (Py.replace "," "X" (Py.format_f true 2 valor)))
  ++ sufixo.

(** ** Cálculo: combustível *)

Module Fuel.
Record result : Type := Result {
  distancia_total : Q;
  litros_necessarios : string;
  preco_combustivel : string;
  custo_total_combustivel : string;
  custo_por_pessoa_combustivel : string;
  num_viajantes : Q
}.
End Fuel.

Definition calcular_combustivel
    (distancia_total consumo_km_litro preco_combustivel num_viajantes : Q)
  : run (option Fuel.result) :=
  if nonpositive distancia_total || nonpositive consumo_km_litro
     || nonpositive preco_combustivel || nonpositive num_viajantes
  then ret None
  else
    litros_necessarios <- div distancia_total consumo_km_litro ;;
    let custo_total := litros_necessarios * preco_combustivel in
    custo_por_pessoa <- div custo_total num_viajantes ;;
    ret (Some {|
      Fuel.distancia_total := distancia_total;
      Fuel.litros_necessarios := formatar_numero litros_necessarios " L";
      Fuel.preco_combustivel := formatar_moeda preco_combustivel;
      Fuel.custo_total_combustivel := formatar_moeda custo_total;
      Fuel.custo_por_pessoa_combustivel := formatar_moeda custo_por_pessoa;
      Fuel.num_viajantes := num_viajantes
    |}).

(** ** Cálculo: viagem completa *)

Module Trip.
Record result : Type := Result {
  destino : string;
  num_dias : Q;
  num_viajantes : Q;
  total_acomodacao : string;
  total_alimentacao : string;
  custo_transporte_total : string;
  custo_atividades_total : string;
  subtotal : string;
  percentual_reserva : string;
  reserva : string;
  custo_total_final : string;
  custo_por_pessoa : string;
  custo_por_dia_pessoa : string
}.
End Trip.

Definition calcular_custos_completos
    (destino : string)
    (num_dias num_viajantes custo_acomodacao_noite custo_transporte_total
     custo_alimentacao_dia_pessoa custo_atividades_total percentual_reserva : Q)
  : run (option Trip.result) :=
  if nonpositive num_dias || nonpositive num_viajantes
  then ret None
  else
    let total_acomodacao := custo_acomodacao_noite * num_dias in
    let total_alimentacao :=
      custo_alimentacao_dia_pessoa * num_dias * num_viajantes in
    let subtotal :=
      total_acomodacao + custo_transporte_total + total_alimentacao
      + custo_atividades_total in
    fracao_reserva <- div percentual_reserva 100 ;;
    let reserva := subtotal * fracao_reserva in
    let custo_total_final := subtotal + reserva in
    custo_por_pessoa <- div custo_total_final num_viajantes ;;
    por_pessoa <- div custo_total_final num_viajantes ;;
    custo_por_dia_pessoa <- div por_pessoa num_dias ;;
    ret (Some {|
      Trip.destino := Py.upper destino;
      Trip.num_dias := num_dias;
      Trip.num_viajantes := num_viajantes;
      Trip.total_acomodacao := formatar_moeda total_acomodacao;
      Trip.total_alimentacao := formatar_moeda total_alimentacao;
      Trip.custo_transporte_total := formatar_moeda custo_transporte_total;
      Trip.custo_atividades_total := formatar_moeda custo_atividades_total;
      Trip.subtotal := formatar_moeda subtotal;
      Trip.percentual_reserva := Py.format_f false 0 percentual_reserva ++ "%";
      Trip.reserva := formatar_moeda reserva;
      Trip.custo_total_final := formatar_moeda custo_total_final;
      Trip.custo_por_pessoa := formatar_moeda custo_por_pessoa;
      Trip.custo_por_dia_pessoa := formatar_moeda custo_por_dia_pessoa
    |}).

(** ** The chart's reading of a money string

    [float(s.replace("R$ ", "").replace(".", "").replace(",", "."))], the
    expression applied to five fields of the result to build
    [valores_numericos]. *)
Definition valor_numerico (s : string) : option Q :=
  Py.float (Py.replace "," "." (Py.replace "." "" (Py.replace "R$ " "" s))).

Definition valores_numericos (resultado : Trip.result) : list (option Q) :=
  [ valor_numerico (Trip.total_acomodacao resultado);
    valor_numerico (Trip.custo_transporte_total resultado);
    valor_numerico (Trip.total_alimentacao resultado);
    valor_numerico (Trip.custo_atividades_total resultado);
    valor_numerico (Trip.reserva resultado) ].

(** Rounding to [k] decimals, ties to even. *)
Definition round_to (k : nat) (v : Q) : Q :=
  inject_Z (Py.round_half_even (v * inject_Z (10 ^ Z.of_nat k)))
  / inject_Z (10 ^ Z.of_nat k).

(** ** Closed forms of the returned records

    The dictionary a call that passes validation returns, written from the
    arguments alone. *)
Definition fuel_record (d e p n : Q) : Fuel.result :=
  {| Fuel.distancia_total := d;
     Fuel.litros_necessarios := formatar_numero (d / e) " L";
     Fuel.preco_combustivel := formatar_moeda p;
     Fuel.custo_total_combustivel := formatar_moeda (d / e * p);
     Fuel.custo_por_pessoa_combustivel := formatar_moeda (d / e * p / n);
     Fuel.num_viajantes := n |}.

Definition trip_subtotal (dias n acomodacao transporte alimentacao atividades : Q) : Q :=
  acomodacao * dias + transporte + alimentacao * dias * n + atividades.

Definition trip_total
    (dias n acomodacao transporte alimentacao atividades percentual : Q) : Q :=
  let subtotal := trip_subtotal dias n acomodacao transporte alimentacao atividades in
  subtotal + subtotal * (percentual / 100).

Definition trip_record
    (destino : string)
    (dias n acomodacao transporte alimentacao atividades percentual : Q)
  : Trip.result :=
  let subtotal := trip_subtotal dias n acomodacao transporte alimentacao atividades in
  let total :=
    trip_total dias n acomodacao transporte alimentacao atividades percentual in
  {| Trip.destino := Py.upper destino;
     Trip.num_dias := dias;
     Trip.num_viajantes := n;
     Trip.total_acomodacao := formatar_moeda (acomodacao * dias);
     Trip.total_alimentacao := formatar_moeda (alimentacao * dias * n);
     Trip.custo_transporte_total := formatar_moeda transporte;
     Trip.custo_atividades_total := formatar_moeda atividades;
     Trip.subtotal := formatar_moeda subtotal;
     Trip.percentual_reserva := Py.format_f false 0 percentual ++ "%";
     Trip.reserva := formatar_moeda (subtotal * (percentual / 100));
     Trip.custo_total_final := formatar_moeda total;
     Trip.custo_por_pessoa := formatar_moeda (total / n);
     Trip.custo_por_dia_pessoa := formatar_moeda (total / n / dias) |}.

(** ** Character-wise view of strings, for the proofs

    [flat g s] replaces every character [c] of [s] by the string [g c];
    replacing a one-character pattern is an instance ([subst1]). *)
Fixpoint flat (g : ascii -> string) (s : string) : string :=
  match s with
  | EmptyString => EmptyString
  | String c s' => g c ++ flat g s'
  end.

Definition subst1 (a : ascii) (new : string) (c : ascii) : string :=
  if Ascii.eqb c a then new else String c EmptyString.

Fixpoint all_chars (p : ascii -> bool) (s : string) : bool :=
  match s with
  | EmptyString => true
  | String c s' => p c && all_chars p s'
  end.

(** The shape of a formatted amount: prefix, sign, grouped integer digits,
    decimal mark, decimals. *)
Definition money_string (pre sgn sep dot D F : string) : string :=
  pre ++ sgn ++ Py.group_by3 sep D ++ dot ++ F.

Definition sign_of (v : Q) : string := if Qlt_le_dec v 0 then "-" else "".

(** [|v|] in hundredths, rounded. *)
Definition cents (v : Q) : Z :=
  Py.round_half_even (Qabs v * inject_Z (10 ^ Z.of_nat 2)).

(** ** Vocabulary of the further properties *)

(** Commas and dots exchanged, character by character. *)
Definition swap_sep (c : ascii) : string :=
  if Ascii.eqb c "," then "."
  else if Ascii.eqb c "." then ","
  else String c EmptyString.

(** An ASCII lower-case letter. *)
Definition is_lower (c : ascii) : bool :=
  let n := nat_of_ascii c in (97 <=? n)%nat && (n <=? 122)%nat.

(** Any character but [a]. *)
Definition not_char (a c : ascii) : bool := negb (Ascii.eqb c a).

(** ** Binary64 arithmetic

    The calculators once more, with the arithmetic Python's [float] has:
    IEEE 754 binary64, every operation rounded to the nearest double, ties
    to even, with signed zeros, infinities and NaN.  A [double] is a sign
    bit and a magnitude; an [int] argument stands for the double of the same
    value (exact up to 2^53).  [str.upper] is a parameter of the trip
    calculator: its Unicode tables are not part of the program. *)

Module B64.

Inductive double : Type :=
| Fin (neg : bool) (m : Q)
| Inf (neg : bool)
| NaN.

Definition sign (x : double) : bool :=
  match x with
  | Fin s _ => s
  | Inf s => s
  | NaN => false
  end.

(** The magnitude and the value of a finite double. *)
Definition mag (x : double) : Q :=
  match x with
  | Fin _ m => Qabs m
  | _ => 0
  end.

Definition value (x : double) : Q := if sign x then - mag x else mag x.

Definition is_finite (x : double) : bool :=
  match x with
  | Fin _ _ => true
  | _ => false
  end.

Definition is_zero (x : double) : bool :=
  match x with
  | Fin _ m => Qeq_bool m 0
  | _ => false
  end.

Definition pow2 (z : Z) : Q := Qpower 2 z.

(** [floor (log2 q)] for [q > 0]. *)
Definition ilog2 (q : Q) : Z :=
  let e0 := (Z.log2 (Qnum q) - Z.log2 (Zpos (Qden q)))%Z in
  if Qle_bool (pow2 e0) q then e0 else (e0 - 1)%Z.

(** The unit in the last place of the doubles around [q > 0]: 53 significant
    bits, and no exponent below that of the subnormals. *)
Definition ulp (q : Q) : Q := pow2 (Z.max (ilog2 q) (-1022) - 52).

(** [q > 0] rounded to the nearest multiple of its [ulp], ties to even. *)
Definition round_mag (q : Q) : Q :=
  Qred (inject_Z (Py.round_half_even (q / ulp q)) * ulp q).

(** The double nearest to [q >= 0], with sign bit [s]; overflow gives an
    infinity, underflow a zero of the same sign. *)
Definition round (s : bool) (q : Q) : double :=
  if Qeq_bool q 0 then Fin s 0
  else
    let r := round_mag q in
    if Qle_bool (pow2 1024) r then Inf s else Fin s r.

(** The double of a literal. *)
Definition of_Q (q : Q) : double :=
  round (if Qlt_le_dec q 0 then true else false) (Qabs q).

Definition of_Z (z : Z) : double := of_Q (inject_Z z).

(** [x * y] *)
Definition mul (x y : double) : double :=
  match x, y with
  | NaN, _ | _, NaN => NaN
  | Inf s, Inf t => Inf (xorb s t)
  | Inf s, Fin t _ => if is_zero y then NaN else Inf (xorb s t)
  | Fin s _, Inf t => if is_zero x then NaN else Inf (xorb s t)
  | Fin s _, Fin t _ => round (xorb s t) (mag x * mag y)
  end.

(** [x + y] *)
Definition add (x y : double) : double :=
  match x, y with
  | NaN, _ | _, NaN => NaN
  | Inf s, Inf t => if Bool.eqb s t then Inf s else NaN
  | Inf s, Fin _ _ => Inf s
  | Fin _ _, Inf t => Inf t
  | Fin s _, Fin t _ =>
      let v := value x + value y in
      if Qeq_bool v 0 then Fin (s && t) 0
      else round (if Qlt_le_dec v 0 then true else false) (Qabs v)
  end.

(** [x / y] for a divisor other than zero. *)
Definition quot (x y : double) : double :=
  match x, y with
  | NaN, _ | _, NaN => NaN
  | Inf _, Inf _ => NaN
  | Inf s, Fin t _ => Inf (xorb s t)
  | Fin s _, Inf t => Fin (xorb s t) 0
  | Fin s _, Fin t _ => round (xorb s t) (mag x / mag y)
  end.

(** [x / y]: [ZeroDivisionError] on a zero of either sign. *)
Definition div (x y : double) : outcome double :=
  if is_zero y then Raised ZeroDivisionError else Returned (quot x y).

(** [x <= 0] and [x > 0]; both are false of NaN. *)
Definition le0 (x : double) : bool :=
  match x with
  | NaN => false
  | Inf s => s
  | Fin _ _ => Qle_bool (value x) 0
  end.

Definition gt0 (x : double) : bool :=
  match x with
  | NaN => false
  | Inf s => negb s
  | Fin _ _ => negb (Qle_bool (value x) 0)
  end.

Definition bind {A B : Type} (m : outcome A) (f : A -> outcome B) : outcome B :=
  match m with
  | Raised e => Raised e
  | Returned a => f a
  end.

(** [format(x, ",.<prec>f")] or [format(x, ".<prec>f")] of a double. *)
Definition format_f (grouping : bool) (prec : nat) (x : double) : string :=
  match x with
  | NaN => "nan"
  | Inf s => (if s then "-" else "") ++ "inf"
  | Fin s _ => (if s then "-" else "") ++ Py.format_f grouping prec (mag x)
  end.

Definition formatar_moeda (valor : double) : string :=
  Py.replace "X" "."
    (Py.replace "." ","
       (Py.replace "," "X" ("R$ " ++ format_f true 2 valor))).

Definition formatar_numero (valor : double) (sufixo : string) : string :=
  Py.replace "X" "."
    (Py.replace "." ","
       (Py.replace "," "X" (format_f true 2 valor)))
  ++ sufixo.

Record fuel_result : Type := FuelResult {
  distancia_total : double;
  litros_necessarios : string;
  preco_combustivel : string;
  custo_total_combustivel : string;
  custo_por_pessoa_combustivel : string;
  fuel_num_viajantes : double
}.

Definition calcular_combustivel
    (distancia_total consumo_km_litro preco_combustivel num_viajantes : double)
  : outcome (option fuel_result) :=
  if le0 distancia_total || le0 consumo_km_litro
     || le0 preco_combustivel || le0 num_viajantes
  then Returned None
  else
    bind (div distancia_total consumo_km_litro) (fun litros_necessarios =>
    let custo_total := mul litros_necessarios preco_combustivel in
    bind (div custo_total num_viajantes) (fun custo_por_pessoa =>
    Returned (Some {|
      distancia_total := distancia_total;
      litros_necessarios := formatar_numero litros_necessarios " L";
      preco_combustivel := formatar_moeda preco_combustivel;
      custo_total_combustivel := formatar_moeda custo_total;
      custo_por_pessoa_combustivel := formatar_moeda custo_por_pessoa;
      fuel_num_viajantes := num_viajantes
    |}))).

Record trip_result : Type := TripResult {
  destino : string;
  num_dias : double;
  num_viajantes : double;
  total_acomodacao : string;
  total_alimentacao : string;
  custo_transporte_total : string;
  custo_atividades_total : string;
  subtotal : string;
  percentual_reserva : string;
  reserva : string;
  custo_total_final : string;
  custo_por_pessoa : string;
  custo_por_dia_pessoa : string
}.

Definition calcular_custos_completos
    (upper : string -> string) (destino : string)
    (num_dias num_viajantes custo_acomodacao_noite custo_transporte_total
     custo_alimentacao_dia_pessoa custo_atividades_total percentual_reserva
     : double)
  : outcome (option trip_result) :=
  if le0 num_dias || le0 num_viajantes
  then Returned None
  else
    let total_acomodacao := mul custo_acomodacao_noite num_dias in
    let total_alimentacao :=
      mul (mul custo_alimentacao_dia_pessoa num_dias) num_viajantes in
    let subtotal :=
      add (add (add total_acomodacao custo_transporte_total) total_alimentacao)
          custo_atividades_total in
    bind (div percentual_reserva (of_Z 100)) (fun fracao_reserva =>
    let reserva := mul subtotal fracao_reserva in
    let custo_total_final := add subtotal reserva in
    bind (div custo_total_final num_viajantes) (fun custo_por_pessoa =>
    bind (div custo_total_final num_viajantes) (fun por_pessoa =>
    bind (div por_pessoa num_dias) (fun custo_por_dia_pessoa =>
    Returned (Some {|
      destino := upper destino;
      num_dias := num_dias;
      num_viajantes := num_viajantes;
      total_acomodacao := formatar_moeda total_acomodacao;
      total_alimentacao := formatar_moeda total_alimentacao;
      custo_transporte_total := formatar_moeda custo_transporte_total;
      custo_atividades_total := formatar_moeda custo_atividades_total;
      subtotal := formatar_moeda subtotal;
      percentual_reserva := format_f false 0 percentual_reserva ++ "%";
      reserva := formatar_moeda reserva;
      custo_total_final := formatar_moeda custo_total_final;
      custo_por_pessoa := formatar_moeda custo_por_pessoa;
      custo_por_dia_pessoa := formatar_moeda custo_por_dia_pessoa
    |}))))).

(** The quantities of a trip behind the gate, and the record returned. *)
Definition trip_subtotal (dias n acomodacao transporte alimentacao atividades : double)
  : double :=
  add (add (add (mul acomodacao dias) transporte) (mul (mul alimentacao dias) n))
      atividades.

Definition trip_total
    (dias n acomodacao transporte alimentacao atividades percentual : double)
  : double :=
  let subtotal := trip_subtotal dias n acomodacao transporte alimentacao atividades in
  add subtotal (mul subtotal (quot percentual (of_Z 100))).

Definition trip_record
    (upper : string -> string) (destino : string)
    (dias n acomodacao transporte alimentacao atividades percentual : double)
  : trip_result :=
  let subtotal := trip_subtotal dias n acomodacao transporte alimentacao atividades in
  let total :=
    trip_total dias n acomodacao transporte alimentacao atividades percentual in
  {| destino := upper destino;
     num_dias := dias;
     num_viajantes := n;
     total_acomodacao := formatar_moeda (mul acomodacao dias);
     total_alimentacao := formatar_moeda (mul (mul alimentacao dias) n);
     custo_transporte_total := formatar_moeda transporte;
     custo_atividades_total := formatar_moeda atividades;
     subtotal := formatar_moeda subtotal;
     percentual_reserva := format_f false 0 percentual ++ "%";
     reserva := formatar_moeda (mul subtotal (quot percentual (of_Z 100)));
     custo_total_final := formatar_moeda total;
     custo_por_pessoa := formatar_moeda (quot total n);
     custo_por_dia_pessoa := formatar_moeda (quot (quot total n) dias) |}.

(** The floating tolerance: half a unit in the last place, relatively. *)
Definition tolerance : Q := pow2 (-53).

(** [c >= 0] hundredths written the Brazilian way: integer digits grouped by
    three with dots, a comma, two decimals. *)
Definition texto_br (c : Z) : string :=
  Py.group_by3 "." (Py.digits (c / 100))
  ++ "," ++ Py.digits_fixed 2 (c mod 100) "".

(** Two results that may differ in the destination only. *)
Definition same_but_destino (r1 r2 : trip_result) : Prop :=
  num_dias r1 = num_dias r2
  /\ num_viajantes r1 = num_viajantes r2
  /\ total_acomodacao r1 = total_acomodacao r2
  /\ total_alimentacao r1 = total_alimentacao r2
  /\ custo_transporte_total r1 = custo_transporte_total r2
  /\ custo_atividades_total r1 = custo_atividades_total r2
  /\ subtotal r1 = subtotal r2
  /\ percentual_reserva r1 = percentual_reserva r2
  /\ reserva r1 = reserva r2
  /\ custo_total_final r1 = custo_total_final r2
  /\ custo_por_pessoa r1 = custo_por_pessoa r2
  /\ custo_por_dia_pessoa r1 = custo_por_dia_pessoa r2.

(** The chart's five values. *)
Definition valores_numericos (resultado : trip_result) : list (option Q) :=
  [ valor_numerico (total_acomodacao resultado);
    valor_numerico (custo_transporte_total resultado);
    valor_numerico (total_alimentacao resultado);
    valor_numerico (custo_atividades_total resultado);
    valor_numerico (reserva resultado) ].

End B64.

(** ** Upper case, said without [Py.upper]

    [capital_form s u]: [u] has the characters of [s], each lower-case ASCII
    letter replaced by the letter 32 code points below it. *)
Definition is_ascii (c : ascii) : bool := (nat_of_ascii c <? 128)%nat.

Fixpoint capital_form (s u : string) : Prop :=
  match s, u with
  | EmptyString, EmptyString => True
  | String c s', String k u' =>
      (if is_lower c then nat_of_ascii k = (nat_of_ascii c - 32)%nat else k = c)
      /\ capital_form s' u'
  | _, _ => False
  end.

(** * Properties *)

(** ** The validation gate and the divisions *)

Lemma nonpositive_true (x : Q) : nonpositive x = true <-> x <= 0.
Proof. unfold nonpositive. apply Qle_bool_iff. Qed.

Lemma nonpositive_false (x : Q) : nonpositive x = false <-> 0 < x.
Proof.
  rewrite <- Bool.not_true_iff_false, nonpositive_true.
  split; intro H.
  - apply Qnot_le_lt; exact H.
  - apply Qlt_not_le; exact H.
Qed.

Lemma div_defined (x y : Q) :
  ~ y == 0 -> div x y = Run [y] (Returned (x / y)).
Proof.
  intro Hy. unfold div.
  destruct (Qeq_bool y 0) eqn:E; [|reflexivity].
  apply Qeq_bool_eq in E. contradiction.
Qed.

Lemma div_positive (x y : Q) : 0 < y -> div x y = Run [y] (Returned (x / y)).
Proof. intro Hy. apply div_defined. intro E. rewrite E in Hy. discriminate. Qed.

Lemma bind_returned {A B : Type} (l : list Q) (a : A) (f : A -> run B) :
  bind (Run l (Returned a)) f = Run (l ++ divisors (f a)) (ending (f a)).
Proof. reflexivity. Qed.

Lemma calcular_combustivel_valid (d e p n : Q) :
  0 < d -> 0 < e -> 0 < p -> 0 < n ->
  calcular_combustivel d e p n = Run [e; n] (Returned (Some (fuel_record d e p n))).
Proof.
  intros Hd He Hp Hn. unfold calcular_combustivel.
  apply nonpositive_false in Hd, Hp. rewrite Hd, Hp.
  rewrite (proj2 (nonpositive_false e) He), (proj2 (nonpositive_false n) Hn).
  cbn [orb].
  rewrite (div_positive d e He), bind_returned.
  rewrite (div_positive _ n Hn). reflexivity.
Qed.

Lemma calcular_combustivel_invalid (d e p n : Q) :
  d <= 0 \/ e <= 0 \/ p <= 0 \/ n <= 0 ->
  calcular_combustivel d e p n = ret None.
Proof.
  intro H. unfold calcular_combustivel.
  replace (nonpositive d || nonpositive e || nonpositive p || nonpositive n)
    with true; [reflexivity|].
  symmetry. rewrite !Bool.orb_true_iff, !nonpositive_true. tauto.
Qed.

Lemma fuel_gate (d e p n : Q) :
  (d <= 0 \/ e <= 0 \/ p <= 0 \/ n <= 0) \/ (0 < d /\ 0 < e /\ 0 < p /\ 0 < n).
Proof.
  destruct (Qlt_le_dec 0 d), (Qlt_le_dec 0 e), (Qlt_le_dec 0 p), (Qlt_le_dec 0 n);
    tauto.
Qed.

Lemma calcular_custos_completos_valid
    (destino : string) (dias n ac tr al atv pr : Q) :
  0 < dias -> 0 < n ->
  calcular_custos_completos destino dias n ac tr al atv pr
  = Run [100; n; n; dias] (Returned (Some (trip_record destino dias n ac tr al atv pr))).
Proof.
  intros Hd Hn. unfold calcular_custos_completos.
  rewrite (proj2 (nonpositive_false dias) Hd), (proj2 (nonpositive_false n) Hn).
  cbn [orb].
  rewrite (div_positive pr 100) by reflexivity. rewrite bind_returned.
  rewrite !(div_positive _ n Hn). rewrite !bind_returned.
  rewrite (div_positive _ dias Hd). reflexivity.
Qed.

Lemma calcular_custos_completos_invalid
    (destino : string) (dias n ac tr al atv pr : Q) :
  dias <= 0 \/ n <= 0 ->
  calcular_custos_completos destino dias n ac tr al atv pr = ret None.
Proof.
  intro H. unfold calcular_custos_completos.
  replace (nonpositive dias || nonpositive n) with true; [reflexivity|].
  symmetry. rewrite Bool.orb_true_iff, !nonpositive_true. exact H.
Qed.

Lemma trip_gate (dias n : Q) : (dias <= 0 \/ n <= 0) \/ (0 < dias /\ 0 < n).
Proof. destruct (Qlt_le_dec 0 dias), (Qlt_le_dec 0 n); tauto. Qed.

(** ** Strings: replacement seen character by character *)

Lemma append_nil_r (s : string) : s ++ "" = s.
Proof. induction s; simpl; congruence. Qed.

Lemma append_assoc (s t u : string) : (s ++ t) ++ u = s ++ (t ++ u).
Proof. induction s; simpl; congruence. Qed.

Lemma length_append (s t : string) :
  String.length (s ++ t) = (String.length s + String.length t)%nat.
Proof. induction s; simpl; congruence. Qed.

Lemma replace_single (a : ascii) (new s : string) :
  Py.replace (String a "") new s = flat (subst1 a new) s.
Proof.
  unfold Py.replace. induction s as [|c s IH]; [reflexivity|].
  cbn [Py.replace_from String.prefix String.length Nat.sub flat].
  unfold subst1 at 1. rewrite IH.
  destruct (ascii_dec a c) as [->|Hne].
  - rewrite Ascii.eqb_refl. destruct s; reflexivity.
  - destruct (Ascii.eqb c a) eqn:E; [|reflexivity].
    apply Ascii.eqb_eq in E. congruence.
Qed.

Lemma flat_app (g : ascii -> string) (s t : string) :
  flat g (s ++ t) = flat g s ++ flat g t.
Proof.
  induction s as [|c s IH]; [reflexivity|].
  simpl. rewrite IH, append_assoc. reflexivity.
Qed.

Lemma flat_fixed (g : ascii -> string) (p : ascii -> bool) (s : string) :
  (forall c, p c = true -> g c = String c "") ->
  all_chars p s = true -> flat g s = s.
Proof.
  intros Hg. induction s as [|c s IH]; [reflexivity|].
  simpl. intros H. apply andb_prop in H. destruct H as [Hc Hs].
  rewrite (Hg c Hc), (IH Hs). reflexivity.
Qed.

Lemma subst1_other (a : ascii) (new : string) (p : ascii -> bool) :
  p a = false -> forall c, p c = true -> subst1 a new c = String c "".
Proof.
  intros Ha c Hc. unfold subst1.
  destruct (Ascii.eqb c a) eqn:E; [|reflexivity].
  apply Ascii.eqb_eq in E. congruence.
Qed.

Lemma all_chars_app (p : ascii -> bool) (s t : string) :
  all_chars p (s ++ t) = all_chars p s && all_chars p t.
Proof.
  induction s as [|c s IH]; [reflexivity|].
  simpl. rewrite IH, andb_assoc. reflexivity.
Qed.

Lemma all_chars_weaken (p q : ascii -> bool) (s : string) :
  (forall c, p c = true -> q c = true) ->
  all_chars p s = true -> all_chars q s = true.
Proof.
  intros Hpq. induction s as [|c s IH]; [reflexivity|].
  simpl. intros H. apply andb_prop in H. destruct H as [Hc Hs].
  rewrite (Hpq c Hc), (IH Hs). reflexivity.
Qed.

(** Grouping commutes with a character-wise replacement that keeps digits. *)
Lemma flat_group_by3 (g : ascii -> string) (sep s : string) :
  (forall c, Py.is_digit c = true -> g c = String c "") ->
  all_chars Py.is_digit s = true ->
  flat g (Py.group_by3 sep s) = Py.group_by3 (flat g sep) s.
Proof.
  intros Hg. induction s as [|c s IH]; [reflexivity|].
  cbn [all_chars Py.group_by3 flat]. intros H.
  apply andb_prop in H. destruct H as [Hc Hs].
  rewrite (Hg c Hc). cbn [append]. f_equal.
  destruct (negb (String.length s =? 0)%nat && (String.length s mod 3 =? 0)%nat).
  - rewrite flat_app, (IH Hs). reflexivity.
  - exact (IH Hs).
Qed.

Lemma group_by3_empty_sep (s : string) : Py.group_by3 "" s = s.
Proof.
  induction s as [|c s IH]; [reflexivity|].
  cbn [Py.group_by3]. cbn [append]. rewrite IH.
  destruct (negb (String.length s =? 0)%nat && (String.length s mod 3 =? 0)%nat);
    reflexivity.
Qed.

(** Removing the currency prefix. *)
Lemma replace_from_absent (new s : string) :
  all_chars (fun c => negb (Ascii.eqb c "R")) s = true ->
  Py.replace_from "R$ " new 0 s = s.
Proof.
  induction s as [|c s IH]; [reflexivity|].
  cbn [all_chars]. intros H. apply andb_prop in H. destruct H as [Hc Hs].
  cbn [Py.replace_from String.prefix].
  destruct (ascii_dec "R" c) as [<-|Hne]; [discriminate Hc|].
  rewrite (IH Hs). reflexivity.
Qed.

Lemma replace_prefix_moeda (s : string) :
  all_chars (fun c => negb (Ascii.eqb c "R")) s = true ->
  Py.replace "R$ " "" ("R$ " ++ s) = s.
Proof.
  intro H. unfold Py.replace. cbn.
  replace (String.prefix "" s) with true by (destruct s; reflexivity).
  apply replace_from_absent. exact H.
Qed.

(** ** Digits: printing and reading back *)

Lemma digit_char_spec (d : Z) :
  (0 <= d < 10)%Z ->
  Py.is_digit (Py.digit_char d) = true /\ Py.digit_value (Py.digit_char d) = d.
Proof.
  intro H.
  assert (E : d = 0%Z \/ d = 1%Z \/ d = 2%Z \/ d = 3%Z \/ d = 4%Z \/ d = 5%Z
              \/ d = 6%Z \/ d = 7%Z \/ d = 8%Z \/ d = 9%Z) by lia.
  repeat (destruct E as [->|E]; [split; reflexivity|]).
  subst d. split; reflexivity.
Qed.

Lemma digit_char_mod10 (n : Z) :
  Py.is_digit (Py.digit_char (n mod 10)) = true
  /\ Py.digit_value (Py.digit_char (n mod 10)) = (n mod 10)%Z.
Proof. apply digit_char_spec. apply Z.mod_pos_bound. lia. Qed.

Lemma digits_value_app (s t : string) (a : Z) :
  Py.digits_value (s ++ t) a
  = match Py.digits_value s a with
    | Some v => Py.digits_value t v
    | None => None
    end.
Proof.
  revert a. induction s as [|c s IH]; intro a; [reflexivity|].
  simpl. destruct (Py.is_digit c); [apply IH|reflexivity].
Qed.

Lemma digits_aux_acc (f : nat) (n : Z) (acc : string) :
  Py.digits_aux f n acc = Py.digits_aux f n "" ++ acc.
Proof.
  revert n acc. induction f as [|f IH]; intros n acc; [reflexivity|].
  cbn [Py.digits_aux]. destruct (n <? 10)%Z; [reflexivity|].
  rewrite (IH _ (String _ acc)), (IH _ (String _ "")).
  rewrite append_assoc. reflexivity.
Qed.

Lemma digits_aux_digits (f : nat) (n : Z) :
  all_chars Py.is_digit (Py.digits_aux f n "") = true.
Proof.
  revert n. induction f as [|f IH]; intro n; [reflexivity|].
  cbn [Py.digits_aux].
  destruct (n <? 10)%Z.
  - cbn [all_chars]. rewrite (proj1 (digit_char_mod10 n)). reflexivity.
  - rewrite digits_aux_acc, all_chars_app, IH. cbn [all_chars andb].
    rewrite (proj1 (digit_char_mod10 n)). reflexivity.
Qed.

Lemma digits_aux_value (f : nat) (n : Z) :
  (0 <= n < 2 ^ Z.of_nat (S f))%Z ->
  Py.digits_value (Py.digits_aux (S f) n "") 0 = Some n.
Proof.
  revert n. induction f as [|f IH]; intros n Hn.
  - change (2 ^ Z.of_nat 1)%Z with 2%Z in Hn.
    cbn [Py.digits_aux]. replace (n <? 10)%Z with true by (symmetry; apply Z.ltb_lt; lia).
    cbn [Py.digits_value]. destruct (digit_char_mod10 n) as [-> ->].
    rewrite Z.mod_small by lia. reflexivity.
  - remember (S f) as f'. cbn [Py.digits_aux].
    destruct (Z.ltb_spec n 10) as [Hlt|Hge].
    + cbn [Py.digits_value]. destruct (digit_char_mod10 n) as [-> ->].
      rewrite Z.mod_small by lia. reflexivity.
    + rewrite digits_aux_acc, digits_value_app. subst f'.
      rewrite IH.
      * cbn [Py.digits_value]. destruct (digit_char_mod10 n) as [-> ->].
        f_equal. pose proof (Z.div_mod n 10). lia.
      * split; [apply Z.div_pos; lia|].
        apply Z.div_lt_upper_bound; [lia|].
        rewrite Nat2Z.inj_succ, Z.pow_succ_r in Hn by lia. lia.
Qed.

Lemma digits_aux_nonempty (f : nat) (n : Z) : Py.digits_aux (S f) n "" <> "".
Proof.
  cbn [Py.digits_aux]. destruct (n <? 10)%Z; [discriminate|].
  rewrite digits_aux_acc. destruct (Py.digits_aux f (n / 10) ""); discriminate.
Qed.

Lemma digits_digits (n : Z) : all_chars Py.is_digit (Py.digits n) = true.
Proof. apply digits_aux_digits. Qed.

Lemma digits_nonempty (n : Z) : Py.digits n <> "".
Proof. apply digits_aux_nonempty. Qed.

Lemma digits_value (n : Z) :
  (0 <= n)%Z -> Py.digits_value (Py.digits n) 0 = Some n.
Proof.
  intro Hn. apply digits_aux_value. split; [exact Hn|].
  rewrite Nat2Z.inj_succ, Z2Nat.id by apply Z.log2_nonneg.
  destruct (Z.eq_dec n 0) as [->|Hz]; [reflexivity|].
  apply Z.log2_spec. lia.
Qed.

Lemma digits_fixed_2 (m : Z) :
  Py.digits_fixed 2 m ""
  = String (Py.digit_char ((m / 10) mod 10)) (String (Py.digit_char (m mod 10)) "").
Proof. reflexivity. Qed.

Lemma digits_fixed_2_digits (m : Z) :
  all_chars Py.is_digit (Py.digits_fixed 2 m "") = true.
Proof.
  rewrite digits_fixed_2. cbn [all_chars].
  rewrite (proj1 (digit_char_mod10 m)), (proj1 (digit_char_mod10 (m / 10))).
  reflexivity.
Qed.

Lemma digits_fixed_2_value (m : Z) :
  (0 <= m < 100)%Z -> Py.digits_value (Py.digits_fixed 2 m "") 0 = Some m.
Proof.
  intro Hm. rewrite digits_fixed_2. cbn [Py.digits_value].
  destruct (digit_char_mod10 (m / 10)) as [-> ->].
  destruct (digit_char_mod10 m) as [-> ->].
  f_equal. pose proof (Z.div_mod m 10).
  assert (0 <= m / 10 < 10)%Z
    by (split; [apply Z.div_pos; lia | apply Z.div_lt_upper_bound; lia]).
  rewrite (Z.mod_small (m / 10)) by lia. lia.
Qed.

(** ** Rounding *)

Lemma Qfloor_unique (q : Q) (z : Z) :
  inject_Z z <= q -> q < inject_Z (z + 1) -> Qfloor q = z.
Proof.
  intros Hlo Hhi.
  assert (H1 : (z <= Qfloor q)%Z).
  { rewrite <- (Qfloor_Z z). apply Qfloor_resp_le. exact Hlo. }
  assert (H2 : (Qfloor q < z + 1)%Z).
  { rewrite Zlt_Qlt. eapply Qle_lt_trans; [apply Qfloor_le|exact Hhi]. }
  lia.
Qed.

Lemma round_half_even_comp (p q : Q) :
  p == q -> Py.round_half_even p = Py.round_half_even q.
Proof.
  intro E. unfold Py.round_half_even.
  rewrite (Qfloor_comp p q E).
  assert (E2 : 2 * (p - inject_Z (Qfloor q)) == 2 * (q - inject_Z (Qfloor q)))
    by (rewrite E; reflexivity).
  rewrite (Qcompare_comp _ _ E2 1 1 (Qeq_refl 1)). reflexivity.
Qed.

Lemma round_half_even_opp (q : Q) :
  Py.round_half_even (- q) = (- Py.round_half_even q)%Z.
Proof.
  unfold Py.round_half_even.
  pose proof (Qfloor_le q) as Hlo. pose proof (Qlt_floor q) as Hhi.
  rewrite inject_Z_plus in Hhi. change (inject_Z 1) with 1 in Hhi.
  set (fl := Qfloor q) in *.
  destruct (Qeq_dec q (inject_Z fl)) as [E|NE].
  - assert (F : Qfloor (- q) = (- fl)%Z).
    { apply Qfloor_unique; rewrite ?inject_Z_plus, inject_Z_opp;
        change (inject_Z 1) with 1; lra. }
    rewrite F, inject_Z_opp.
    destruct (Qcompare_spec (2 * (- q - - inject_Z fl)) 1);
      destruct (Qcompare_spec (2 * (q - inject_Z fl)) 1); try lra.
    reflexivity.
  - assert (F : Qfloor (- q) = (- fl - 1)%Z).
    { apply Qfloor_unique;
        unfold Z.sub; rewrite ?inject_Z_plus, ?inject_Z_opp;
        change (inject_Z 1) with 1; lra. }
    rewrite F. unfold Z.sub at 1. rewrite inject_Z_plus, !inject_Z_opp.
    change (inject_Z 1) with 1.
    destruct (Qcompare_spec (2 * (- q - (- inject_Z fl + - (1)))) 1);
      destruct (Qcompare_spec (2 * (q - inject_Z fl)) 1); try lra; try lia.
    replace (- fl - 1)%Z with (- (fl + 1))%Z by lia.
    rewrite Z.even_opp, Z.even_add. cbn [Z.even].
    destruct (Z.even fl); cbn; lia.
Qed.

Lemma round_half_even_nonneg (q : Q) : 0 <= q -> (0 <= Py.round_half_even q)%Z.
Proof.
  intro H. unfold Py.round_half_even.
  assert (F : (0 <= Qfloor q)%Z).
  { change 0%Z with (Qfloor 0). apply Qfloor_resp_le. exact H. }
  destruct (2 * (q - inject_Z (Qfloor q)) ?= 1); [destruct (Z.even _)| |]; lia.
Qed.

(** ** Reading a decimal literal *)

Lemma digit_is_not (a c : ascii) :
  Py.is_digit a = false -> Py.is_digit c = true -> Ascii.eqb c a = false.
Proof.
  intros Ha Hc. destruct (Ascii.eqb c a) eqn:E; [|reflexivity].
  apply Ascii.eqb_eq in E. congruence.
Qed.

Lemma split_dot_digits (D F : string) :
  all_chars Py.is_digit D = true ->
  Py.split_dot (D ++ String "." F) = (D, Some F).
Proof.
  induction D as [|c D IH]; [reflexivity|].
  cbn [all_chars append Py.split_dot]. intro H.
  apply andb_prop in H. destruct H as [Hc HD].
  rewrite (digit_is_not "." c eq_refl Hc), (IH HD). reflexivity.
Qed.

Lemma unsigned_float_decimal (D F : string) (i f : Z) :
  all_chars Py.is_digit D = true -> D <> "" ->
  Py.digits_value D 0 = Some i -> Py.digits_value F 0 = Some f ->
  Py.unsigned_float (D ++ String "." F)
  = Some (inject_Z i + inject_Z f / inject_Z (10 ^ Z.of_nat (String.length F))).
Proof.
  intros HD Hne Hi Hf. unfold Py.unsigned_float.
  rewrite (split_dot_digits D F HD), Hi, Hf.
  destruct D as [|c D]; [contradiction|]. reflexivity.
Qed.

Lemma float_digit_first (c : ascii) (s : string) :
  Py.is_digit c = true -> Py.float (String c s) = Py.unsigned_float (String c s).
Proof.
  intro H.
  destruct c as [[] [] [] [] [] [] [] []]; try discriminate H; reflexivity.
Qed.

Lemma float_decimal (D F : string) (i f : Z) :
  all_chars Py.is_digit D = true -> D <> "" ->
  Py.digits_value D 0 = Some i -> Py.digits_value F 0 = Some f ->
  Py.float (D ++ String "." F)
  = Some (inject_Z i + inject_Z f / inject_Z (10 ^ Z.of_nat (String.length F))).
Proof.
  intros HD Hne Hi Hf.
  rewrite <- (unsigned_float_decimal D F i f HD Hne Hi Hf).
  destruct D as [|c D]; [contradiction|].
  cbn [all_chars] in HD. apply andb_prop in HD.
  apply float_digit_first. apply HD.
Qed.

Lemma float_negative_decimal (D F : string) (i f : Z) :
  all_chars Py.is_digit D = true -> D <> "" ->
  Py.digits_value D 0 = Some i -> Py.digits_value F 0 = Some f ->
  Py.float ("-" ++ D ++ String "." F)
  = Some (- (inject_Z i + inject_Z f / inject_Z (10 ^ Z.of_nat (String.length F)))).
Proof.
  intros HD Hne Hi Hf. cbn [append Py.float].
  rewrite (unsigned_float_decimal D F i f HD Hne Hi Hf). reflexivity.
Qed.

(** ** The shape of a formatted amount *)

Lemma all_chars_group_by3 (p : ascii -> bool) (sep s : string) :
  all_chars p sep = true -> all_chars p s = true ->
  all_chars p (Py.group_by3 sep s) = true.
Proof.
  intros Hsep. induction s as [|c s IH]; [reflexivity|].
  cbn [all_chars Py.group_by3]. intro H.
  apply andb_prop in H. destruct H as [Hc Hs]. rewrite Hc. cbn [andb].
  destruct (negb (String.length s =? 0)%nat && (String.length s mod 3 =? 0)%nat).
  - rewrite all_chars_app, Hsep, (IH Hs). reflexivity.
  - exact (IH Hs).
Qed.

Lemma flat_money (g : ascii -> string) (pre sgn sep dot D F : string) :
  (forall c, Py.is_digit c = true -> g c = String c "") ->
  all_chars Py.is_digit D = true -> all_chars Py.is_digit F = true ->
  flat g (money_string pre sgn sep dot D F)
  = money_string (flat g pre) (flat g sgn) (flat g sep) (flat g dot) D F.
Proof.
  intros Hg HD HF. unfold money_string.
  rewrite !flat_app, (flat_group_by3 g sep D Hg HD).
  rewrite (flat_fixed g Py.is_digit F Hg HF). reflexivity.
Qed.

Lemma format_f_2_shape (v : Q) :
  Py.format_f true 2 v
  = money_string "" (sign_of v) "," "."
      (Py.digits (cents v / 100)) (Py.digits_fixed 2 (cents v mod 100) "").
Proof. reflexivity. Qed.

Lemma formatar_moeda_shape (v : Q) :
  formatar_moeda v
  = money_string "R$ " (sign_of v) "." ","
      (Py.digits (cents v / 100)) (Py.digits_fixed 2 (cents v mod 100) "").
Proof.
  unfold formatar_moeda. rewrite format_f_2_shape.
  set (D := Py.digits (cents v / 100)).
  set (F := Py.digits_fixed 2 (cents v mod 100) "").
  change ("R$ " ++ money_string "" (sign_of v) "," "." D F)
    with (money_string "R$ " (sign_of v) "," "." D F).
  assert (HD : all_chars Py.is_digit D = true) by apply digits_digits.
  assert (HF : all_chars Py.is_digit F = true) by apply digits_fixed_2_digits.
  rewrite !replace_single.
  rewrite (flat_money _ _ _ _ _ D F (subst1_other "," "X" Py.is_digit eq_refl) HD HF).
  rewrite (flat_money _ _ _ _ _ D F (subst1_other "." "," Py.is_digit eq_refl) HD HF).
  rewrite (flat_money _ _ _ _ _ D F (subst1_other "X" "." Py.is_digit eq_refl) HD HF).
  unfold sign_of. destruct (Qlt_le_dec v 0); reflexivity.
Qed.

Lemma money_tail_no_R (sgn D F : string) :
  sgn = "" \/ sgn = "-" ->
  all_chars Py.is_digit D = true -> all_chars Py.is_digit F = true ->
  all_chars (fun c => negb (Ascii.eqb c "R")) (money_string "" sgn "." "," D F) = true.
Proof.
  intros Hsgn HD HF.
  assert (HR : forall c, Py.is_digit c = true -> negb (Ascii.eqb c "R") = true).
  { intros c Hc. rewrite (digit_is_not "R" c eq_refl Hc). reflexivity. }
  unfold money_string. rewrite !all_chars_app.
  rewrite all_chars_group_by3;
    [|reflexivity|exact (all_chars_weaken _ _ D HR HD)].
  rewrite (all_chars_weaken _ _ F HR HF).
  destruct Hsgn as [-> | ->]; reflexivity.
Qed.

Lemma float_of_money_tail (sgn D F : string) :
  sgn = "" \/ sgn = "-" ->
  all_chars Py.is_digit D = true -> all_chars Py.is_digit F = true ->
  Py.float (Py.replace "," "." (Py.replace "." "" (money_string "" sgn "." "," D F)))
  = Py.float (sgn ++ D ++ String "." F).
Proof.
  intros Hsgn HD HF. rewrite !replace_single.
  rewrite (flat_money _ _ _ _ _ D F (subst1_other "." "" Py.is_digit eq_refl) HD HF).
  rewrite (flat_money _ _ _ _ _ D F (subst1_other "," "." Py.is_digit eq_refl) HD HF).
  destruct Hsgn as [-> | ->]; cbn; unfold money_string;
    rewrite group_by3_empty_sep; reflexivity.
Qed.

Lemma valor_numerico_money (sgn D F : string) :
  sgn = "" \/ sgn = "-" ->
  all_chars Py.is_digit D = true -> all_chars Py.is_digit F = true ->
  valor_numerico (money_string "R$ " sgn "." "," D F)
  = Py.float (sgn ++ D ++ String "." F).
Proof.
  intros Hsgn HD HF. unfold valor_numerico.
  change (money_string "R$ " sgn "." "," D F)
    with ("R$ " ++ money_string "" sgn "." "," D F).
  rewrite replace_prefix_moeda by (apply money_tail_no_R; assumption).
  apply float_of_money_tail; assumption.
Qed.

Lemma valor_numerico_plain (sgn D F : string) :
  sgn = "" \/ sgn = "-" ->
  all_chars Py.is_digit D = true -> all_chars Py.is_digit F = true ->
  valor_numerico (money_string "" sgn "." "," D F)
  = Py.float (sgn ++ D ++ String "." F).
Proof.
  intros Hsgn HD HF. unfold valor_numerico.
  replace (Py.replace "R$ " "" (money_string "" sgn "." "," D F))
    with (money_string "" sgn "." "," D F).
  - apply float_of_money_tail; assumption.
  - symmetry. apply replace_from_absent. apply money_tail_no_R; assumption.
Qed.

Lemma formatar_numero_shape (v : Q) (sufixo : string) :
  formatar_numero v sufixo
  = money_string "" (sign_of v) "." ","
      (Py.digits (cents v / 100)) (Py.digits_fixed 2 (cents v mod 100) "")
    ++ sufixo.
Proof.
  unfold formatar_numero. rewrite format_f_2_shape.
  set (D := Py.digits (cents v / 100)).
  set (F := Py.digits_fixed 2 (cents v mod 100) "").
  assert (HD : all_chars Py.is_digit D = true) by apply digits_digits.
  assert (HF : all_chars Py.is_digit F = true) by apply digits_fixed_2_digits.
  rewrite !replace_single.
  rewrite (flat_money _ _ _ _ _ D F (subst1_other "," "X" Py.is_digit eq_refl) HD HF).
  rewrite (flat_money _ _ _ _ _ D F (subst1_other "." "," Py.is_digit eq_refl) HD HF).
  rewrite (flat_money _ _ _ _ _ D F (subst1_other "X" "." Py.is_digit eq_refl) HD HF).
  unfold sign_of. destruct (Qlt_le_dec v 0); reflexivity.
Qed.

(** ** Formatting and reading back *)

Lemma cents_nonneg (v : Q) : (0 <= cents v)%Z.
Proof.
  apply round_half_even_nonneg.
  apply Qmult_le_0_compat; [apply Qabs_nonneg|discriminate].
Qed.

Lemma cents_split (v : Q) :
  inject_Z (cents v / 100) + inject_Z (cents v mod 100) / inject_Z (10 ^ Z.of_nat 2)
  == inject_Z (cents v) / inject_Z (10 ^ Z.of_nat 2).
Proof.
  rewrite (Z.div_mod (cents v) 100) at 3 by discriminate.
  rewrite inject_Z_plus, inject_Z_mult.
  change (inject_Z (10 ^ Z.of_nat 2)) with 100. change (inject_Z 100) with 100.
  field.
Qed.

Lemma float_of_amount (v : Q) :
  exists q,
    Py.float (sign_of v ++ Py.digits (cents v / 100)
              ++ String "." (Py.digits_fixed 2 (cents v mod 100) "")) = Some q
    /\ q == round_to 2 v.
Proof.
  set (D := Py.digits (cents v / 100)).
  set (F := Py.digits_fixed 2 (cents v mod 100) "").
  assert (HD : all_chars Py.is_digit D = true) by apply digits_digits.
  assert (HDn : D <> "") by apply digits_nonempty.
  pose proof (cents_nonneg v) as Hc.
  assert (Hi : Py.digits_value D 0 = Some (cents v / 100)%Z).
  { apply digits_value. apply Z.div_pos; lia. }
  assert (Hf : Py.digits_value F 0 = Some (cents v mod 100)%Z).
  { apply digits_fixed_2_value. apply Z.mod_pos_bound. lia. }
  assert (HL : String.length F = 2%nat) by reflexivity.
  unfold sign_of, round_to. destruct (Qlt_le_dec v 0) as [Hneg|Hpos].
  - rewrite (float_negative_decimal D F _ _ HD HDn Hi Hf), HL.
    eexists. split; [reflexivity|].
    rewrite cents_split. unfold cents.
    assert (E : v * inject_Z (10 ^ Z.of_nat 2)
                == - (Qabs v * inject_Z (10 ^ Z.of_nat 2))).
    { rewrite (Qabs_neg v) by (apply Qlt_le_weak; exact Hneg). ring. }
    rewrite (round_half_even_comp _ _ E), round_half_even_opp, inject_Z_opp.
    change (inject_Z (10 ^ Z.of_nat 2)) with 100. field.
  - cbn [append].
    rewrite (float_decimal D F _ _ HD HDn Hi Hf), HL.
    eexists. split; [reflexivity|].
    rewrite cents_split. unfold cents.
    assert (E : Qabs v * inject_Z (10 ^ Z.of_nat 2)
                == v * inject_Z (10 ^ Z.of_nat 2)).
    { rewrite (Qabs_pos v Hpos). reflexivity. }
    rewrite (round_half_even_comp _ _ E). reflexivity.
Qed.

Lemma sign_of_cases (v : Q) : sign_of v = "" \/ sign_of v = "-".
Proof. unfold sign_of. destruct (Qlt_le_dec v 0); auto. Qed.

Lemma valor_numerico_formatar_moeda (v : Q) :
  exists q, valor_numerico (formatar_moeda v) = Some q /\ q == round_to 2 v.
Proof.
  rewrite formatar_moeda_shape, valor_numerico_money.
  - apply float_of_amount.
  - apply sign_of_cases.
  - apply digits_digits.
  - apply digits_fixed_2_digits.
Qed.

Lemma valor_numerico_formatar_numero (v : Q) (sufixo : string) :
  exists s q,
    formatar_numero v sufixo = s ++ sufixo
    /\ valor_numerico s = Some q /\ q == round_to 2 v.
Proof.
  destruct (float_of_amount v) as [q [Hq Hr]].
  eexists. exists q. split; [apply formatar_numero_shape|]. split; [|exact Hr].
  rewrite valor_numerico_plain.
  - exact Hq.
  - apply sign_of_cases.
  - apply digits_digits.
  - apply digits_fixed_2_digits.
Qed.

(** ** The same number, written differently, is formatted the same *)

Lemma format_f_comp (grouping : bool) (prec : nat) (v w : Q) :
  v == w -> Py.format_f grouping prec v = Py.format_f grouping prec w.
Proof.
  intro E. unfold Py.format_f.
  assert (E2 : Qabs v * inject_Z (10 ^ Z.of_nat prec)
               == Qabs w * inject_Z (10 ^ Z.of_nat prec))
    by (rewrite E; reflexivity).
  rewrite (round_half_even_comp _ _ E2).
  destruct (Qlt_le_dec v 0), (Qlt_le_dec w 0); try reflexivity; lra.
Qed.

Lemma formatar_moeda_comp (v w : Q) : v == w -> formatar_moeda v = formatar_moeda w.
Proof. intro E. unfold formatar_moeda. rewrite (format_f_comp true 2 v w E). reflexivity. Qed.

Lemma formatar_numero_comp (v w : Q) (sufixo : string) :
  v == w -> formatar_numero v sufixo = formatar_numero w sufixo.
Proof. intro E. unfold formatar_numero. rewrite (format_f_comp true 2 v w E). reflexivity. Qed.

Lemma round_half_even_close (q : Q) :
  Qabs (inject_Z (Py.round_half_even q) - q) <= 1 # 2.
Proof.
  unfold Py.round_half_even.
  pose proof (Qfloor_le q) as Hlo. pose proof (Qlt_floor q) as Hhi.
  rewrite inject_Z_plus in Hhi. change (inject_Z 1) with 1 in Hhi.
  apply Qabs_Qle_condition.
  destruct (Qcompare_spec (2 * (q - inject_Z (Qfloor q))) 1) as [E|L|G];
    [destruct (Z.even (Qfloor q))| |];
    rewrite ?inject_Z_plus; change (inject_Z 1) with 1; lra.
Qed.

Lemma round_to_2_close (v : Q) : Qabs (round_to 2 v - v) <= 1 # 200.
Proof.
  unfold round_to. change (inject_Z (10 ^ Z.of_nat 2)) with 100.
  pose proof (round_half_even_close (v * 100)) as H.
  apply Qabs_Qle_condition in H. apply Qabs_Qle_condition.
  set (z := inject_Z (Py.round_half_even (v * 100))) in *.
  split.
  - apply Qmult_le_r with (z := 100); [reflexivity|]. 
    setoid_replace ((z / 100 - v) * 100) with (z - v * 100) by field. lra.
  - apply Qmult_le_r with (z := 100); [reflexivity|].
    setoid_replace ((z / 100 - v) * 100) with (z - v * 100) by field. lra.
Qed.

(** * The claims *)

(** ** Fuel calculator *)

(** C3.  [calcular_combustivel] returns [None] exactly when one of its four
    arguments is at most zero, and returns a result when all four are
    positive. *)
Theorem calcular_combustivel_validacao (d e p n : Q) :
  (ending (calcular_combustivel d e p n) = Returned None
   <-> d <= 0 \/ e <= 0 \/ p <= 0 \/ n <= 0)
  /\ (0 < d -> 0 < e -> 0 < p -> 0 < n ->
      exists r, ending (calcular_combustivel d e p n) = Returned (Some r)).
Proof.
  split.
  - split.
    + intro H. destruct (fuel_gate d e p n) as [Hbad|[Hd [He [Hp Hn]]]]; [exact Hbad|].
      rewrite (calcular_combustivel_valid d e p n Hd He Hp Hn) in H. discriminate H.
    + intro H. rewrite (calcular_combustivel_invalid d e p n H). reflexivity.
  - intros Hd He Hp Hn. exists (fuel_record d e p n).
    rewrite (calcular_combustivel_valid d e p n Hd He Hp Hn). reflexivity.
Qed.

Lemma calcular_combustivel_validacao_witness :
  (exists r, ending (calcular_combustivel 500 12 5.99 2) = Returned (Some r))
  /\ ending (calcular_combustivel 500 12 5.99 0) = Returned None.
Proof.
  split.
  - apply (proj2 (calcular_combustivel_validacao 500 12 5.99 2)); reflexivity.
  - apply (proj1 (calcular_combustivel_validacao 500 12 5.99 0)).
    right; right; right. discriminate.
Defined.

(** ** Trip calculator *)

(** C6 (as stated, fails).  In scenario B the per-traveler-per-day field is
    the text ["R$ 488,71"], which reads 488.71, not 3421/7 =
    488.714285... *)
Lemma cenario_b_por_dia_arredondado :
  exists r por_dia,
    ending (calcular_custos_completos "Paris" 7 2 300 2500 80 500 10)
    = Returned (Some r)
    /\ Trip.custo_por_dia_pessoa r = "R$ 488,71"
    /\ valor_numerico (Trip.custo_por_dia_pessoa r) = Some por_dia
    /\ por_dia == 48871 # 100
    /\ ~ por_dia == 3421 / 7.
Proof.
  exists (trip_record "Paris" 7 2 300 2500 80 500 10), 488.71.
  repeat split; try (vm_compute; reflexivity); intro H; vm_compute in H; discriminate H.
Qed.

(** C6 (amended).  For 7 days, 2 travelers, lodging 300, transport 2500,
    food 80, activities 500 and reserve 10, the result carries
    lodgingTotal, foodTotal, subtotal, reserveAmount, grandTotal and
    costPerTraveler as the renderings of 2100, 1120, 6220, 622, 6842 and
    3421, and costPerTravelerPerDay as ["R$ 488,71"], the rendering of
    3421/7 rounded to two decimals. *)
Theorem cenario_b (destino : string) :
  exists r,
    ending (calcular_custos_completos destino 7 2 300 2500 80 500 10)
    = Returned (Some r)
    /\ Trip.total_acomodacao r = "R$ 2.100,00"
    /\ Trip.total_alimentacao r = "R$ 1.120,00"
    /\ Trip.subtotal r = "R$ 6.220,00"
    /\ Trip.reserva r = "R$ 622,00"
    /\ Trip.custo_total_final r = "R$ 6.842,00"
    /\ Trip.custo_por_pessoa r = "R$ 3.421,00"
    /\ Trip.custo_por_dia_pessoa r = "R$ 488,71"
    /\ formatar_moeda 2100 = "R$ 2.100,00"
    /\ formatar_moeda 1120 = "R$ 1.120,00"
    /\ formatar_moeda 6220 = "R$ 6.220,00"
    /\ formatar_moeda 622 = "R$ 622,00"
    /\ formatar_moeda 6842 = "R$ 6.842,00"
    /\ formatar_moeda 3421 = "R$ 3.421,00"
    /\ formatar_moeda (3421 / 7) = "R$ 488,71"
    /\ round_to 2 (3421 / 7) == 48871 # 100.
Proof.
  exists (trip_record destino 7 2 300 2500 80 500 10).
  rewrite calcular_custos_completos_valid by reflexivity.
  repeat split; vm_compute; reflexivity.
Qed.

(** ** Both calculators *)

(** C7.  Whatever the arguments, every division a calculator performs has
    a strictly positive divisor, and the call ends by returning ([None] from
    the validation gate, or a result): it never raises
    [ZeroDivisionError]. *)
Theorem divisores_positivos :
  (forall d e p n : Q,
      Forall (fun y => 0 < y) (divisors (calcular_combustivel d e p n))
      /\ exists o, ending (calcular_combustivel d e p n) = Returned o)
  /\ (forall (destino : string) (dias n ac tr al atv pr : Q),
      Forall (fun y => 0 < y)
             (divisors (calcular_custos_completos destino dias n ac tr al atv pr))
      /\ exists o,
          ending (calcular_custos_completos destino dias n ac tr al atv pr)
          = Returned o).
Proof.
  split.
  - intros d e p n.
    destruct (fuel_gate d e p n) as [Hbad|[Hd [He [Hp Hn]]]].
    + rewrite (calcular_combustivel_invalid d e p n Hbad).
      split; [constructor|]. exists None. reflexivity.
    + rewrite (calcular_combustivel_valid d e p n Hd He Hp Hn).
      split; [repeat constructor; assumption|]. eexists. reflexivity.
  - intros destino dias n ac tr al atv pr.
    destruct (trip_gate dias n) as [Hbad|[Hd Hn]].
    + rewrite (calcular_custos_completos_invalid _ _ _ ac tr al atv pr Hbad).
      split; [constructor|]. exists None. reflexivity.
    + rewrite (calcular_custos_completos_valid _ _ _ ac tr al atv pr Hd Hn).
      split; [repeat constructor; assumption || reflexivity|].
      eexists. reflexivity.
Qed.

(** ** Formatting and the chart *)

(** C10.  For every value [v], reading [formatar_moeda v] back the way the
    chart does (drop ["R$ "], delete the dots, turn the comma into a dot,
    [float]) succeeds and gives [v] rounded to two decimals: a whole number
    of hundredths, at most half a hundredth away from [v]. *)
Theorem moeda_ida_e_volta (v : Q) :
  exists q,
    valor_numerico (formatar_moeda v) = Some q
    /\ q == round_to 2 v
    /\ q * 100 == inject_Z (Py.round_half_even (v * 100))
    /\ Qabs (q - v) <= 1 # 200.
Proof.
  destruct (valor_numerico_formatar_moeda v) as [q [Hq Hr]].
  exists q. split; [exact Hq|]. split; [exact Hr|]. split.
  - rewrite Hr. unfold round_to.
    change (inject_Z (10 ^ Z.of_nat 2)) with 100. field.
  - rewrite Hr. apply round_to_2_close.
Qed.

(** The five values the chart plots exist for every result the trip
    calculator returns: [float] never fails on them. *)
Lemma valores_numericos_definidos
    (destino : string) (dias n ac tr al atv pr : Q) :
  Forall (fun o => o <> None)
         (valores_numericos (trip_record destino dias n ac tr al atv pr)).
Proof.
  assert (H : forall v, valor_numerico (formatar_moeda v) <> None).
  { intro v. destruct (valor_numerico_formatar_moeda v) as [q [Hq _]].
    rewrite Hq. discriminate. }
  unfold valores_numericos, trip_record.
  cbn [Trip.total_acomodacao Trip.custo_transporte_total Trip.total_alimentacao
       Trip.custo_atividades_total Trip.reserva].
  repeat (apply Forall_cons; [apply H|]). apply Forall_nil.
Qed.

Example valores_numericos_cenario_b :
  valores_numericos (trip_record "Paris" 7 2 300 2500 80 500 10)
  = [Some 2100.00; Some 2500.00; Some 1120.00; Some 500.00; Some 622.00].
Proof. vm_compute. reflexivity. Qed.

(** * Further properties of the code *)

(** ** Rounding, continued *)

Lemma round_half_even_Z (z : Z) : Py.round_half_even (inject_Z z) = z.
Proof.
  unfold Py.round_half_even. rewrite Qfloor_Z.
  destruct (Qcompare_spec (2 * (inject_Z z - inject_Z z)) 1) as [E|L|G];
    [exfalso; lra | reflexivity | exfalso; lra].
Qed.

Lemma round_half_even_small (q : Q) :
  0 <= q -> q < 1 # 2 -> Py.round_half_even q = 0%Z.
Proof.
  intros Hlo Hhi. unfold Py.round_half_even.
  assert (F : Qfloor q = 0%Z).
  { apply Qfloor_unique; change (inject_Z 0) with 0;
      change (inject_Z (0 + 1)) with 1; lra. }
  rewrite F. change (inject_Z 0) with 0.
  destruct (Qcompare_spec (2 * (q - 0)) 1) as [E|L|G];
    [exfalso; lra | reflexivity | exfalso; lra].
Qed.

Lemma round_half_even_mono (p q : Q) :
  p <= q -> (Py.round_half_even p <= Py.round_half_even q)%Z.
Proof.
  intro H. unfold Py.round_half_even.
  pose proof (Qfloor_resp_le p q H) as Hfl.
  pose proof (Qfloor_le p) as Hp1. pose proof (Qlt_floor p) as Hp2.
  pose proof (Qfloor_le q) as Hq1. pose proof (Qlt_floor q) as Hq2.
  rewrite inject_Z_plus in Hp2, Hq2. change (inject_Z 1) with 1 in Hp2, Hq2.
  destruct (Z.eq_dec (Qfloor p) (Qfloor q)) as [E|NE].
  - rewrite E in *.
    destruct (Qcompare_spec (2 * (p - inject_Z (Qfloor q))) 1);
      destruct (Qcompare_spec (2 * (q - inject_Z (Qfloor q))) 1);
      destruct (Z.even (Qfloor q)); try lia; exfalso; lra.
  - assert (Hlt : (Qfloor p + 1 <= Qfloor q)%Z) by lia.
    destruct (2 * (p - inject_Z (Qfloor p)) ?= 1);
      destruct (2 * (q - inject_Z (Qfloor q)) ?= 1);
      destruct (Z.even (Qfloor p)); destruct (Z.even (Qfloor q)); lia.
Qed.

Lemma round_to_2_mono (v w : Q) : v <= w -> round_to 2 v <= round_to 2 w.
Proof.
  intro H. unfold round_to. change (inject_Z (10 ^ Z.of_nat 2)) with 100.
  unfold Qdiv. apply Qmult_le_compat_r; [|discriminate].
  rewrite <- Zle_Qle. apply round_half_even_mono. lra.
Qed.

Lemma round_to_2_cents (c : Z) :
  round_to 2 (inject_Z c / 100) == inject_Z c / 100.
Proof.
  unfold round_to. change (inject_Z (10 ^ Z.of_nat 2)) with 100.
  assert (E : inject_Z c / 100 * 100 == inject_Z c) by field.
  rewrite (round_half_even_comp _ _ E), round_half_even_Z. reflexivity.
Qed.

Lemma cents_comp (v w : Q) : v == w -> cents v = cents w.
Proof.
  intro E. unfold cents. apply round_half_even_comp. rewrite E. reflexivity.
Qed.

Lemma cents_opp (v : Q) : cents (- v) = cents v.
Proof.
  unfold cents. apply round_half_even_comp. rewrite Qabs_opp. reflexivity.
Qed.

Lemma cents_Z (z : Z) : (0 <= z)%Z -> cents (inject_Z z) = (z * 100)%Z.
Proof.
  intro Hz. unfold cents.
  assert (E : Qabs (inject_Z z) * inject_Z (10 ^ Z.of_nat 2) == inject_Z (z * 100)).
  { assert (A : Qabs (inject_Z z) == inject_Z z).
    { apply Qabs_pos. change 0 with (inject_Z 0). rewrite <- Zle_Qle. exact Hz. }
    rewrite A, inject_Z_mult. reflexivity. }
  rewrite (round_half_even_comp _ _ E). apply round_half_even_Z.
Qed.

Lemma sign_of_nonneg (v : Q) : 0 <= v -> sign_of v = "".
Proof.
  intro H. unfold sign_of. destruct (Qlt_le_dec v 0) as [Hneg|_]; [|reflexivity].
  exfalso. lra.
Qed.

Lemma sign_of_neg (v : Q) : v < 0 -> sign_of v = "-".
Proof.
  intro H. unfold sign_of. destruct (Qlt_le_dec v 0) as [_|Hpos]; [reflexivity|].
  exfalso. lra.
Qed.

(** ** The two formatters *)

Lemma swap_sep_digit (c : ascii) :
  Py.is_digit c = true -> swap_sep c = String c "".
Proof.
  intro H. unfold swap_sep.
  rewrite (digit_is_not "," c eq_refl H), (digit_is_not "." c eq_refl H).
  reflexivity.
Qed.

Lemma all_chars_money (p : ascii -> bool) (pre sgn sep dot D F : string) :
  (forall c, Py.is_digit c = true -> p c = true) ->
  all_chars p pre = true -> all_chars p sgn = true ->
  all_chars p sep = true -> all_chars p dot = true ->
  all_chars Py.is_digit D = true -> all_chars Py.is_digit F = true ->
  all_chars p (money_string pre sgn sep dot D F) = true.
Proof.
  intros Hp Hpre Hsgn Hsep Hdot HD HF. unfold money_string.
  rewrite !all_chars_app, Hpre, Hsgn, Hdot.
  rewrite (all_chars_group_by3 p sep D Hsep (all_chars_weaken _ _ D Hp HD)).
  rewrite (all_chars_weaken _ _ F Hp HF). reflexivity.
Qed.

Lemma not_char_digit (a : ascii) :
  Py.is_digit a = false ->
  forall c, Py.is_digit c = true -> not_char a c = true.
Proof.
  intros Ha c Hc. unfold not_char. rewrite (digit_is_not a c Ha Hc). reflexivity.
Qed.

(** X1.  [formatar_moeda v] is ["R$ "] followed by the [,.2f] rendering of
    [v] with every comma turned into a dot and every dot into a comma; the
    placeholder ["X"] of the three replacements never stays in the text. *)
Theorem formatar_moeda_troca_separadores (v : Q) :
  formatar_moeda v = "R$ " ++ flat swap_sep (Py.format_f true 2 v)
  /\ all_chars (not_char "X") (formatar_moeda v) = true.
Proof.
  rewrite formatar_moeda_shape, format_f_2_shape.
  set (D := Py.digits (cents v / 100)).
  set (F := Py.digits_fixed 2 (cents v mod 100) "").
  assert (HD : all_chars Py.is_digit D = true) by apply digits_digits.
  assert (HF : all_chars Py.is_digit F = true) by apply digits_fixed_2_digits.
  split.
  - rewrite (flat_money swap_sep _ _ _ _ D F swap_sep_digit HD HF).
    destruct (sign_of_cases v) as [-> | ->]; reflexivity.
  - apply all_chars_money; try assumption; try reflexivity.
    + apply not_char_digit. reflexivity.
    + destruct (sign_of_cases v) as [-> | ->]; reflexivity.
Qed.

(** X2.  The two formatters agree: [formatar_moeda v] is ["R$ "] followed
    by [formatar_numero v] with the default (empty) suffix, and a suffix is
    only appended at the end. *)
Theorem formatar_moeda_formatar_numero (v : Q) :
  formatar_moeda v = "R$ " ++ formatar_numero v ""
  /\ forall sufixo : string,
      formatar_numero v sufixo = formatar_numero v "" ++ sufixo.
Proof.
  split.
  - rewrite formatar_moeda_shape, formatar_numero_shape, append_nil_r.
    reflexivity.
  - intro sufixo. rewrite !formatar_numero_shape, append_nil_r. reflexivity.
Qed.

(** X3.  A negative amount is written as the positive one with ["-"] put
    right after ["R$ "]. *)
Theorem formatar_moeda_negativo (v : Q) :
  0 < v ->
  exists t, formatar_moeda v = "R$ " ++ t /\ formatar_moeda (- v) = "R$ -" ++ t.
Proof.
  intro Hv.
  exists (money_string "" "" "." ","
            (Py.digits (cents v / 100)) (Py.digits_fixed 2 (cents v mod 100) "")).
  rewrite !formatar_moeda_shape, cents_opp.
  rewrite (sign_of_nonneg v) by lra. rewrite (sign_of_neg (- v)) by lra.
  split; reflexivity.
Qed.

Lemma formatar_moeda_negativo_witness :
  exists t,
    formatar_moeda (1234.5) = "R$ " ++ t
    /\ formatar_moeda (- (1234.5)) = "R$ -" ++ t.
Proof. apply (formatar_moeda_negativo 1234.5). reflexivity. Defined.

(** ** Reading amounts back *)

(** X6.  An amount that is a whole number of hundredths, of either sign,
    is read back from its formatted text unchanged. *)
Theorem centavos_ida_e_volta (c : Z) :
  exists q,
    valor_numerico (formatar_moeda (inject_Z c / 100)) = Some q
    /\ q == inject_Z c / 100.
Proof.
  destruct (valor_numerico_formatar_moeda (inject_Z c / 100)) as [q [Hq Hr]].
  exists q. split; [exact Hq|]. rewrite Hr. apply round_to_2_cents.
Qed.

(** X7.  Formatting and reading back keeps the order of two amounts: the
    chart never shows the smaller of two amounts as the larger. *)
Theorem leitura_monotona (v w : Q) :
  v <= w ->
  exists a b,
    valor_numerico (formatar_moeda v) = Some a
    /\ valor_numerico (formatar_moeda w) = Some b
    /\ a <= b.
Proof.
  intro H.
  destruct (valor_numerico_formatar_moeda v) as [a [Ha Hra]].
  destruct (valor_numerico_formatar_moeda w) as [b [Hb Hrb]].
  exists a, b. split; [exact Ha|]. split; [exact Hb|].
  rewrite Hra, Hrb. apply round_to_2_mono. exact H.
Qed.

Lemma leitura_monotona_witness :
  exists a b,
    valor_numerico (formatar_moeda (3421 / 7)) = Some a
    /\ valor_numerico (formatar_moeda 3421) = Some b
    /\ a <= b.
Proof. apply (leitura_monotona (3421 / 7) 3421). discriminate. Defined.

(** ** Special cases of the trip budget *)

(** X11.  With a single traveler the cost per person is the same text as
    the final total; if the trip also lasts a single day, so is the cost per
    day and person. *)
Theorem viajante_unico (destino : string) (dias n ac tr al atv pr : Q) :
  0 < dias -> n == 1 ->
  exists r,
    ending (calcular_custos_completos destino dias n ac tr al atv pr)
    = Returned (Some r)
    /\ Trip.custo_por_pessoa r = Trip.custo_total_final r
    /\ (dias == 1 -> Trip.custo_por_dia_pessoa r = Trip.custo_total_final r).
Proof.
  intros Hd Hn.
  assert (Hn' : 0 < n) by (rewrite Hn; reflexivity).
  rewrite (calcular_custos_completos_valid destino dias n ac tr al atv pr Hd Hn').
  exists (trip_record destino dias n ac tr al atv pr).
  split; [reflexivity|]. unfold trip_record.
  cbn [Trip.custo_por_pessoa Trip.custo_total_final Trip.custo_por_dia_pessoa].
  set (t := trip_total dias n ac tr al atv pr).
  split.
  - apply formatar_moeda_comp. rewrite Hn. field.
  - intro Hd1. apply formatar_moeda_comp. rewrite Hn, Hd1. field.
Qed.

Lemma viajante_unico_witness :
  exists r,
    ending (calcular_custos_completos "Paris" 1 1 300 2500 80 500 10)
    = Returned (Some r)
    /\ Trip.custo_por_pessoa r = Trip.custo_total_final r
    /\ Trip.custo_por_dia_pessoa r = Trip.custo_total_final r.
Proof.
  destruct (viajante_unico "Paris" 1 1 300 2500 80 500 10) as [r [Hr [Hp Hdia]]];
    [reflexivity | reflexivity |].
  exists r. split; [exact Hr|]. split; [exact Hp|].
  apply Hdia. reflexivity.
Defined.

(** X12.  In the fuel calculator, with a single traveler the cost per
    person is the same text as the total cost. *)
Theorem viajante_unico_combustivel (d e p n : Q) :
  0 < d -> 0 < e -> 0 < p -> n == 1 ->
  exists r,
    ending (calcular_combustivel d e p n) = Returned (Some r)
    /\ Fuel.custo_por_pessoa_combustivel r = Fuel.custo_total_combustivel r.
Proof.
  intros Hd He Hp Hn.
  assert (Hn' : 0 < n) by (rewrite Hn; reflexivity).
  rewrite (calcular_combustivel_valid d e p n Hd He Hp Hn').
  exists (fuel_record d e p n). split; [reflexivity|].
  unfold fuel_record.
  cbn [Fuel.custo_por_pessoa_combustivel Fuel.custo_total_combustivel].
  apply formatar_moeda_comp. rewrite Hn.
  assert (He' : ~ e == 0) by (intro E; rewrite E in He; discriminate He).
  field. exact He'.
Qed.

Lemma viajante_unico_combustivel_witness :
  exists r,
    ending (calcular_combustivel 500 12 5.99 1) = Returned (Some r)
    /\ Fuel.custo_por_pessoa_combustivel r = Fuel.custo_total_combustivel r.
Proof. apply (viajante_unico_combustivel 500 12 5.99 1); reflexivity. Defined.



(** ** The form's bounds *)

Lemma Qdiv_nonneg (x y : Q) : 0 <= x -> 0 < y -> 0 <= x / y.
Proof.
  intros Hx Hy. unfold Qdiv. apply Qmult_le_0_compat; [exact Hx|].
  apply Qinv_le_0_compat. apply Qlt_le_weak. exact Hy.
Qed.

(** X15.  In the fuel calculator, with at least one traveler the cost per
    person read back from the result is never above the total cost read
    back. *)
Theorem combustivel_por_pessoa_no_maximo_total (d e p n : Q) :
  0 < d -> 0 < e -> 0 < p -> 1 <= n ->
  exists r por_pessoa total,
    ending (calcular_combustivel d e p n) = Returned (Some r)
    /\ valor_numerico (Fuel.custo_por_pessoa_combustivel r) = Some por_pessoa
    /\ valor_numerico (Fuel.custo_total_combustivel r) = Some total
    /\ por_pessoa <= total.
Proof.
  intros Hd He Hp Hn.
  assert (Hn' : 0 < n) by lra.
  rewrite (calcular_combustivel_valid d e p n Hd He Hp Hn').
  assert (Hle : d / e * p / n <= d / e * p).
  { assert (Ht : 0 <= d / e * p).
    { apply Qmult_le_0_compat; [apply Qdiv_nonneg|]; lra. }
    apply Qle_shift_div_r; [exact Hn'|].
    set (t := d / e * p) in *.
    assert (0 <= t * (n - 1)) by (apply Qmult_le_0_compat; lra).
    lra. }
  destruct (valor_numerico_formatar_moeda (d / e * p / n)) as [a [Ha Hra]].
  destruct (valor_numerico_formatar_moeda (d / e * p)) as [b [Hb Hrb]].
  exists (fuel_record d e p n), a, b.
  split; [reflexivity|]. split; [exact Ha|]. split; [exact Hb|].
  rewrite Hra, Hrb. apply round_to_2_mono. exact Hle.
Qed.

Lemma combustivel_por_pessoa_no_maximo_total_witness :
  exists r por_pessoa total,
    ending (calcular_combustivel 500 12 5.99 2) = Returned (Some r)
    /\ valor_numerico (Fuel.custo_por_pessoa_combustivel r) = Some por_pessoa
    /\ valor_numerico (Fuel.custo_total_combustivel r) = Some total
    /\ por_pessoa <= total.
Proof.
  apply (combustivel_por_pessoa_no_maximo_total 500 12 5.99 2);
    first [reflexivity | discriminate].
Defined.

(** ** The destination *)

Lemma upper_char_not_lower (c : ascii) : is_lower (Py.upper_char c) = false.
Proof. destruct c as [[] [] [] [] [] [] [] []]; reflexivity. Qed.

Lemma upper_char_fixed (c : ascii) : is_lower c = false -> Py.upper_char c = c.
Proof. destruct c as [[] [] [] [] [] [] [] []]; intro H; try discriminate H; reflexivity. Qed.

Lemma upper_no_lower (s : string) :
  all_chars (fun c => negb (is_lower c)) (Py.upper s) = true.
Proof.
  induction s as [|c s IH]; [reflexivity|].
  cbn [Py.upper all_chars]. rewrite upper_char_not_lower, IH. reflexivity.
Qed.

Lemma upper_idempotent (s : string) : Py.upper (Py.upper s) = Py.upper s.
Proof.
  induction s as [|c s IH]; [reflexivity|].
  cbn [Py.upper]. rewrite IH, (upper_char_fixed _ (upper_char_not_lower c)).
  reflexivity.
Qed.

(** * Binary64: properties *)

(** ** Signs, zeros and the gate *)

Lemma b64_gt0_sign (x : B64.double) : B64.gt0 x = true -> B64.sign x = false.
Proof.
  destruct x as [s m|s|]; cbn; try discriminate.
  - destruct s; [|reflexivity]. intro H.
    apply negb_true_iff in H. apply Bool.not_true_iff_false in H.
    exfalso. apply H. apply Qle_bool_iff.
    unfold B64.value; cbn. pose proof (Qabs_nonneg m). lra.
  - destruct s; [discriminate|reflexivity].
Qed.

Lemma b64_gt0_le0 (x : B64.double) : B64.gt0 x = true -> B64.le0 x = false.
Proof.
  destruct x as [s m|s|]; cbn; try discriminate.
  - apply negb_true_iff.
  - apply negb_true_iff.
Qed.

Lemma b64_le0_false_not_zero (x : B64.double) :
  B64.le0 x = false -> B64.is_zero x = false.
Proof.
  destruct x as [s m|s|]; cbn; try reflexivity.
  intro H. destruct (Qeq_bool m 0) eqn:E; [|reflexivity].
  apply Qeq_bool_eq in E. apply Bool.not_true_iff_false in H.
  exfalso. apply H. apply Qle_bool_iff.
  assert (A : Qabs m == 0) by (rewrite E; reflexivity).
  unfold B64.value; cbn. destruct s; rewrite A; discriminate.
Qed.

Lemma b64_gt0_mag (x : B64.double) :
  B64.gt0 x = true -> B64.is_finite x = true -> 0 < B64.mag x.
Proof.
  destruct x as [s m|s|]; cbn; try discriminate.
  intros H _. apply negb_true_iff in H. apply Bool.not_true_iff_false in H.
  rewrite Qle_bool_iff in H. unfold B64.value in H; cbn in H.
  pose proof (Qabs_nonneg m). destruct s; lra.
Qed.

Lemma b64_div_defined (x y : B64.double) :
  B64.le0 y = false -> B64.div x y = Returned (B64.quot x y).
Proof.
  intro H. unfold B64.div. rewrite (b64_le0_false_not_zero y H). reflexivity.
Qed.

Lemma b64_div_100 (x : B64.double) :
  B64.div x (B64.of_Z 100) = Returned (B64.quot x (B64.of_Z 100)).
Proof. reflexivity. Qed.

(** The records the calls return behind the gate. *)
Lemma b64_calcular_combustivel_valid (d e p n : B64.double) :
  B64.le0 d = false -> B64.le0 e = false -> B64.le0 p = false ->
  B64.le0 n = false ->
  B64.calcular_combustivel d e p n
  = Returned (Some {|
      B64.distancia_total := d;
      B64.litros_necessarios := B64.formatar_numero (B64.quot d e) " L";
      B64.preco_combustivel := B64.formatar_moeda p;
      B64.custo_total_combustivel :=
        B64.formatar_moeda (B64.mul (B64.quot d e) p);
      B64.custo_por_pessoa_combustivel :=
        B64.formatar_moeda (B64.quot (B64.mul (B64.quot d e) p) n);
      B64.fuel_num_viajantes := n
    |}).
Proof.
  intros Hd He Hp Hn. unfold B64.calcular_combustivel.
  rewrite Hd, He, Hp, Hn. cbn [orb].
  rewrite (b64_div_defined d e He). cbn [B64.bind].
  rewrite (b64_div_defined _ n Hn). reflexivity.
Qed.

Lemma b64_calcular_combustivel_invalid (d e p n : B64.double) :
  B64.le0 d || B64.le0 e || B64.le0 p || B64.le0 n = true ->
  B64.calcular_combustivel d e p n = Returned None.
Proof. intro H. unfold B64.calcular_combustivel. rewrite H. reflexivity. Qed.

Lemma b64_calcular_custos_completos_valid
    (upper : string -> string) (destino : string)
    (dias n ac tr al atv pr : B64.double) :
  B64.le0 dias = false -> B64.le0 n = false ->
  B64.calcular_custos_completos upper destino dias n ac tr al atv pr
  = Returned (Some (B64.trip_record upper destino dias n ac tr al atv pr)).
Proof.
  intros Hd Hn. unfold B64.calcular_custos_completos.
  rewrite Hd, Hn. cbn [orb].
  rewrite b64_div_100. cbn [B64.bind].
  rewrite !(b64_div_defined _ n Hn). cbn [B64.bind].
  rewrite (b64_div_defined _ dias Hd). reflexivity.
Qed.

Lemma b64_calcular_custos_completos_invalid
    (upper : string -> string) (destino : string)
    (dias n ac tr al atv pr : B64.double) :
  B64.le0 dias || B64.le0 n = true ->
  B64.calcular_custos_completos upper destino dias n ac tr al atv pr
  = Returned None.
Proof. intro H. unfold B64.calcular_custos_completos. rewrite H. reflexivity. Qed.

(** ** Rounding to the nearest double *)

Lemma pow2_pos (z : Z) : 0 < B64.pow2 z.
Proof. apply Qpower_0_lt. reflexivity. Qed.

Lemma pow2_add (a b : Z) : B64.pow2 (a + b) == B64.pow2 a * B64.pow2 b.
Proof. apply Qpower_plus. discriminate. Qed.

Lemma pow2_of_Z (z : Z) : (0 <= z)%Z -> B64.pow2 z == inject_Z (2 ^ z).
Proof. intro H. unfold B64.pow2. rewrite (Zpower_Qpower 2 z H). reflexivity. Qed.

Lemma Qmake_as_div (q : Q) : q == inject_Z (Qnum q) / inject_Z (Zpos (Qden q)).
Proof. destruct q as [n d]. apply Qmake_Qdiv. Qed.

(** [ilog2 q] is not above the logarithm. *)
Lemma ilog2_le (q : Q) : 0 < q -> B64.pow2 (B64.ilog2 q) <= q.
Proof.
  intro Hq. unfold B64.ilog2.
  set (n := Qnum q). set (d := Zpos (Qden q)).
  destruct (Qle_bool (B64.pow2 (Z.log2 n - Z.log2 d)) q) eqn:E.
  - apply Qle_bool_iff. exact E.
  - assert (Hn : (0 < n)%Z).
    { destruct q as [qn qd]. unfold Qlt in Hq. cbn in *. subst n. lia. }
    assert (Hd : (0 < d)%Z) by (subst d; lia).
    pose proof (Z.log2_spec n Hn) as [Hn1 _].
    pose proof (Z.log2_spec d Hd) as [_ Hd2].
    pose proof (Z.log2_nonneg n) as Ln. pose proof (Z.log2_nonneg d) as Ld.
    rewrite (Qmake_as_div q). fold n d.
    assert (Hd' : 0 < inject_Z d).
    { change 0 with (inject_Z 0). rewrite <- Zlt_Qlt. exact Hd. }
    apply Qle_shift_div_l; [exact Hd'|].
    replace (Z.log2 n - Z.log2 d - 1)%Z
      with (Z.log2 n + - (Z.log2 d + 1))%Z by lia.
    rewrite pow2_add. unfold B64.pow2 at 2. rewrite Qpower_opp.
    fold (B64.pow2 (Z.log2 d + 1)).
    rewrite (pow2_of_Z (Z.log2 n) Ln), (pow2_of_Z (Z.log2 d + 1)) by lia.
    assert (A : inject_Z n >= inject_Z (2 ^ Z.log2 n))
      by (rewrite <- Zle_Qle; exact Hn1).
    assert (B : inject_Z d <= inject_Z (2 ^ (Z.log2 d + 1))).
    { rewrite <- Zle_Qle. unfold Z.succ in Hd2. lia. }
    assert (P1 : 0 < inject_Z (2 ^ Z.log2 n)).
    { change 0 with (inject_Z 0). rewrite <- Zlt_Qlt. lia. }
    assert (P2 : 0 < inject_Z (2 ^ (Z.log2 d + 1))).
    { change 0 with (inject_Z 0). rewrite <- Zlt_Qlt. apply Z.pow_pos_nonneg; lia. }
    set (a := inject_Z (2 ^ Z.log2 n)) in *.
    set (b := inject_Z (2 ^ (Z.log2 d + 1))) in *.
    apply Qle_trans with (y := a); [|exact A].
    setoid_replace (a * / b * inject_Z d) with (a * (inject_Z d / b))
      by (field; intro Z0; rewrite Z0 in P2; discriminate P2).
    rewrite <- (Qmult_1_r a) at 2.
    apply Qmult_le_l; [exact P1|].
    apply Qle_shift_div_r; [exact P2|]. lra.
Qed.

Lemma ulp_pos (q : Q) : 0 < B64.ulp q.
Proof. apply pow2_pos. Qed.

(** In the normal range the unit in the last place is at most [q * 2^-52]. *)
Lemma ulp_le (q : Q) :
  0 < q -> B64.pow2 (-1022) <= q -> B64.ulp q <= q * B64.pow2 (-52).
Proof.
  intros Hq Hn. unfold B64.ulp.
  pose proof (pow2_pos (-52)) as P52.
  destruct (Z.max_spec (B64.ilog2 q) (-1022)) as [[_ ->]|[_ ->]].
  - replace (-1022 - 52)%Z with (-1022 + -52)%Z by lia.
    rewrite pow2_add. apply Qmult_le_compat_r; [exact Hn|].
    apply Qlt_le_weak. exact P52.
  - replace (B64.ilog2 q - 52)%Z with (B64.ilog2 q + -52)%Z by lia.
    rewrite pow2_add. apply Qmult_le_compat_r; [apply ilog2_le; exact Hq|].
    apply Qlt_le_weak. exact P52.
Qed.

Lemma round_mag_nonneg (q : Q) : 0 <= q -> 0 <= B64.round_mag q.
Proof.
  intro Hq. unfold B64.round_mag. rewrite Qred_correct.
  apply Qmult_le_0_compat; [|apply Qlt_le_weak, ulp_pos].
  change 0 with (inject_Z 0). rewrite <- Zle_Qle.
  apply round_half_even_nonneg.
  unfold Qdiv. apply Qmult_le_0_compat; [exact Hq|].
  apply Qinv_le_0_compat. apply Qlt_le_weak, ulp_pos.
Qed.

(** The rounding error: at most [q * 2^-53] in the normal range. *)
Lemma round_mag_error (q : Q) :
  0 < q -> B64.pow2 (-1022) <= q ->
  Qabs (B64.round_mag q - q) <= q * B64.tolerance.
Proof.
  intros Hq Hn. unfold B64.round_mag, B64.tolerance. rewrite Qred_correct.
  pose proof (ulp_pos q) as Hu. pose proof (ulp_le q Hq Hn) as Hle.
  set (u := B64.ulp q) in *.
  pose proof (round_half_even_close (q / u)) as Hc.
  apply Qabs_Qle_condition in Hc.
  set (z := inject_Z (Py.round_half_even (q / u))) in *.
  assert (E : z * u - q == (z - q / u) * u)
    by (field; intro Z0; rewrite Z0 in Hu; discriminate Hu).
  assert (H53 : B64.pow2 (-52) == 2 * B64.pow2 (-53)).
  { replace (-52)%Z with (1 + -53)%Z by lia. rewrite pow2_add. reflexivity. }
  rewrite H53 in Hle.
  apply Qabs_Qle_condition. rewrite E.
  destruct Hc as [Hc1 Hc2].
  assert (L : - (1 # 2) * u <= (z - q / u) * u)
    by (apply Qmult_le_compat_r; [exact Hc1 | lra]).
  assert (U : (z - q / u) * u <= (1 # 2) * u)
    by (apply Qmult_le_compat_r; [exact Hc2 | lra]).
  set (t := B64.pow2 (-53)) in *. split; lra.
Qed.

Lemma b64_quot_error (x y : B64.double) :
  B64.gt0 x = true -> B64.gt0 y = true ->
  B64.is_finite x = true -> B64.is_finite y = true ->
  B64.is_finite (B64.quot x y) = true ->
  B64.pow2 (-1022) <= B64.value x / B64.value y ->
  Qabs (B64.value (B64.quot x y) * B64.value y - B64.value x)
  <= B64.value x * B64.tolerance.
Proof.
  intros Gx Gy Fx Fy Fq Hn.
  pose proof (b64_gt0_mag x Gx Fx) as Mx. pose proof (b64_gt0_mag y Gy Fy) as My.
  pose proof (b64_gt0_sign x Gx) as Sx. pose proof (b64_gt0_sign y Gy) as Sy.
  destruct x as [s a|s|]; try discriminate Fx.
  destruct y as [t b|t|]; try discriminate Fy.
  cbn in Sx, Sy. subst s t.
  change (B64.value (B64.Fin false a)) with (Qabs a) in *.
  change (B64.value (B64.Fin false b)) with (Qabs b) in *.
  change (B64.mag (B64.Fin false a)) with (Qabs a) in *.
  change (B64.mag (B64.Fin false b)) with (Qabs b) in *.
  change (B64.quot (B64.Fin false a) (B64.Fin false b))
    with (B64.round false (Qabs a / Qabs b)) in *.
  set (mx := Qabs a) in *. set (my := Qabs b) in *. set (q := mx / my) in *.
  assert (Hq : 0 < q).
  { unfold q, Qdiv. apply Qmult_lt_0_compat; [exact Mx|].
    apply Qinv_lt_0_compat. exact My. }
  unfold B64.round in *.
  destruct (Qeq_bool q 0) eqn:E0.
  { apply Qeq_bool_eq in E0. rewrite E0 in Hq. discriminate Hq. }
  destruct (Qle_bool (B64.pow2 1024) (B64.round_mag q)); [discriminate Fq|].
  change (B64.value (B64.Fin false (B64.round_mag q)))
    with (Qabs (B64.round_mag q)).
  pose proof (round_mag_error q Hq Hn) as Err.
  pose proof (round_mag_nonneg q (Qlt_le_weak _ _ Hq)) as Rn.
  assert (A : Qabs (B64.round_mag q) == B64.round_mag q) by (apply Qabs_pos; exact Rn).
  set (r := B64.round_mag q) in *. set (ar := Qabs r) in *.
  assert (My' : ~ my == 0) by (intro Z0; rewrite Z0 in My; discriminate My).
  assert (Eq : r * my - mx == (r - q) * my) by (unfold q; field; exact My').
  assert (Eq2 : mx * B64.tolerance == q * B64.tolerance * my)
    by (unfold q; field; exact My').
  apply Qabs_Qle_condition in Err. destruct Err as [E1 E2].
  assert (L : - (q * B64.tolerance) * my <= (r - q) * my)
    by (apply Qmult_le_compat_r; [exact E1 | lra]).
  assert (U : (r - q) * my <= q * B64.tolerance * my)
    by (apply Qmult_le_compat_r; [exact E2 | lra]).
  assert (A2 : ar * my - mx == r * my - mx) by (rewrite A; reflexivity).
  apply Qabs_Qle_condition.
  set (tl := B64.tolerance) in *. split; lra.
Qed.

(** ** The text of a double *)

Lemma cents_abs (m : Q) : cents (Qabs m) = cents m.
Proof.
  unfold cents. apply round_half_even_comp.
  assert (A : Qabs (Qabs m) == Qabs m) by (apply Qabs_pos, Qabs_nonneg).
  rewrite A. reflexivity.
Qed.

Lemma b64_formatar_moeda_finite (s : bool) (m : Q) :
  B64.formatar_moeda (B64.Fin s m)
  = "R$ " ++ (if s then "-" else "") ++ B64.texto_br (cents m).
Proof.
  unfold B64.formatar_moeda, B64.format_f. cbn [B64.mag].
  rewrite format_f_2_shape, (sign_of_nonneg (Qabs m) (Qabs_nonneg m)), cents_abs.
  set (D := Py.digits (cents m / 100)).
  set (F := Py.digits_fixed 2 (cents m mod 100) "").
  assert (HD : all_chars Py.is_digit D = true) by apply digits_digits.
  assert (HF : all_chars Py.is_digit F = true) by apply digits_fixed_2_digits.
  change ("R$ " ++ (if s then "-" else "") ++ money_string "" "" "," "." D F)
    with (money_string "R$ " (if s then "-" else "") "," "." D F).
  rewrite !replace_single.
  rewrite (flat_money _ _ _ _ _ D F (subst1_other "," "X" Py.is_digit eq_refl) HD HF).
  rewrite (flat_money _ _ _ _ _ D F (subst1_other "." "," Py.is_digit eq_refl) HD HF).
  rewrite (flat_money _ _ _ _ _ D F (subst1_other "X" "." Py.is_digit eq_refl) HD HF).
  destruct s; reflexivity.
Qed.

Lemma b64_formatar_numero_finite (s : bool) (m : Q) (sufixo : string) :
  B64.formatar_numero (B64.Fin s m) sufixo
  = (if s then "-" else "") ++ B64.texto_br (cents m) ++ sufixo.
Proof.
  unfold B64.formatar_numero, B64.format_f. cbn [B64.mag].
  rewrite format_f_2_shape, (sign_of_nonneg (Qabs m) (Qabs_nonneg m)), cents_abs.
  set (D := Py.digits (cents m / 100)).
  set (F := Py.digits_fixed 2 (cents m mod 100) "").
  assert (HD : all_chars Py.is_digit D = true) by apply digits_digits.
  assert (HF : all_chars Py.is_digit F = true) by apply digits_fixed_2_digits.
  change ((if s then "-" else "") ++ money_string "" "" "," "." D F)
    with (money_string "" (if s then "-" else "") "," "." D F).
  rewrite !replace_single.
  rewrite (flat_money _ _ _ _ _ D F (subst1_other "," "X" Py.is_digit eq_refl) HD HF).
  rewrite (flat_money _ _ _ _ _ D F (subst1_other "." "," Py.is_digit eq_refl) HD HF).
  rewrite (flat_money _ _ _ _ _ D F (subst1_other "X" "." Py.is_digit eq_refl) HD HF).
  unfold money_string, B64.texto_br. destruct s; cbn [flat subst1 append];
    rewrite !append_assoc; reflexivity.
Qed.

Lemma cents_round_to (m : Q) :
  inject_Z (cents m) / 100 == round_to 2 (Qabs m).
Proof.
  unfold round_to, cents. change (inject_Z (10 ^ Z.of_nat 2)) with 100.
  reflexivity.
Qed.

Lemma round_to_2_opp (v : Q) : round_to 2 (- v) == - round_to 2 v.
Proof.
  unfold round_to. change (inject_Z (10 ^ Z.of_nat 2)) with 100.
  assert (E : - v * 100 == - (v * 100)) by ring.
  rewrite (round_half_even_comp _ _ E), round_half_even_opp, inject_Z_opp.
  field.
Qed.

(** Reading the text of a finite double back gives its value rounded to two
    decimals. *)
Lemma b64_valor_numerico_formatar_moeda (s : bool) (m : Q) :
  exists q,
    valor_numerico (B64.formatar_moeda (B64.Fin s m)) = Some q
    /\ q == round_to 2 (B64.value (B64.Fin s m)).
Proof.
  rewrite b64_formatar_moeda_finite.
  set (D := Py.digits (cents m / 100)).
  set (F := Py.digits_fixed 2 (cents m mod 100) "").
  assert (HD : all_chars Py.is_digit D = true) by apply digits_digits.
  assert (HF : all_chars Py.is_digit F = true) by apply digits_fixed_2_digits.
  assert (HDn : D <> "") by apply digits_nonempty.
  pose proof (cents_nonneg m) as Hc.
  assert (Hi : Py.digits_value D 0 = Some (cents m / 100)%Z).
  { apply digits_value. apply Z.div_pos; lia. }
  assert (Hf : Py.digits_value F 0 = Some (cents m mod 100)%Z).
  { apply digits_fixed_2_value. apply Z.mod_pos_bound. lia. }
  assert (HL : String.length F = 2%nat) by reflexivity.
  change ("R$ " ++ (if s then "-" else "") ++ B64.texto_br (cents m))
    with (money_string "R$ " (if s then "-" else "") "." "," D F).
  rewrite valor_numerico_money by (try assumption; destruct s; auto).
  unfold B64.value. cbn [B64.sign B64.mag]. destruct s.
  - rewrite (float_negative_decimal D F _ _ HD HDn Hi Hf), HL.
    eexists. split; [reflexivity|].
    rewrite cents_split, round_to_2_opp, <- cents_round_to.
    change (inject_Z (10 ^ Z.of_nat 2)) with 100. reflexivity.
  - cbn [append]. rewrite (float_decimal D F _ _ HD HDn Hi Hf), HL.
    eexists. split; [reflexivity|].
    rewrite cents_split, <- cents_round_to.
    change (inject_Z (10 ^ Z.of_nat 2)) with 100. reflexivity.
Qed.

(** ** Signs of results *)

Lemma b64_sign_round (s : bool) (q : Q) : B64.sign (B64.round s q) = s.
Proof.
  unfold B64.round. destruct (Qeq_bool q 0); [reflexivity|].
  destruct (Qle_bool (B64.pow2 1024) (B64.round_mag q)); reflexivity.
Qed.

Lemma b64_sign_mul (x y : B64.double) :
  B64.sign x = false -> B64.sign y = false -> B64.sign (B64.mul x y) = false.
Proof.
  intros Hx Hy.
  destruct x as [s a|s|], y as [t b|t|]; cbn [B64.sign] in Hx, Hy; subst;
    try reflexivity.
  - cbn [B64.mul xorb]. apply b64_sign_round.
  - cbn [B64.mul]. destruct (B64.is_zero (B64.Fin false a)); reflexivity.
  - cbn [B64.mul]. destruct (B64.is_zero (B64.Fin false b)); reflexivity.
Qed.

Lemma b64_sign_quot (x y : B64.double) :
  B64.sign x = false -> B64.sign y = false -> B64.sign (B64.quot x y) = false.
Proof.
  intros Hx Hy.
  destruct x as [s a|s|], y as [t b|t|]; cbn [B64.sign] in Hx, Hy; subst;
    try reflexivity.
  cbn [B64.quot xorb]. apply b64_sign_round.
Qed.

Lemma b64_value_nonneg (x : B64.double) : B64.sign x = false -> 0 <= B64.value x.
Proof.
  intro H. unfold B64.value. rewrite H.
  destruct x; cbn [B64.mag]; [apply Qabs_nonneg | discriminate | discriminate].
Qed.

Lemma b64_sign_add (x y : B64.double) :
  B64.sign x = false -> B64.sign y = false -> B64.sign (B64.add x y) = false.
Proof.
  intros Hx Hy.
  pose proof (b64_value_nonneg x Hx) as Vx. pose proof (b64_value_nonneg y Hy) as Vy.
  destruct x as [s a|s|], y as [t b|t|]; cbn [B64.sign] in Hx, Hy; subst;
    try reflexivity.
  cbn [B64.add].
  destruct (Qeq_bool (B64.value (B64.Fin false a) + B64.value (B64.Fin false b)) 0)
    eqn:E; [reflexivity|].
  rewrite b64_sign_round.
  destruct (Qlt_le_dec (B64.value (B64.Fin false a) + B64.value (B64.Fin false b)) 0);
    [exfalso; lra | reflexivity].
Qed.

Lemma b64_finite_pos_gt0 (x : B64.double) :
  B64.is_finite x = true -> 0 < B64.value x -> B64.gt0 x = true.
Proof.
  destruct x as [s m|s|]; try discriminate. intros _ H. cbn [B64.gt0].
  apply negb_true_iff. apply Bool.not_true_iff_false. rewrite Qle_bool_iff. lra.
Qed.

(** ** Fuel calculator in binary64 *)

(** C1 (as stated, fails).  With distance 10, economy 1, price 1 and three
    travelers the result carries the total as ["R$ 10,00"] and the cost per
    traveler as ["R$ 3,33"]: the per-traveler field times the traveler count
    is a hundredth away from the total, far outside any floating
    tolerance. *)
Lemma combustivel_por_pessoa_fora_da_tolerancia :
  exists r total por_pessoa,
    B64.calcular_combustivel (B64.of_Z 10) (B64.of_Z 1) (B64.of_Z 1) (B64.of_Z 3)
    = Returned (Some r)
    /\ B64.custo_total_combustivel r = "R$ 10,00"
    /\ B64.custo_por_pessoa_combustivel r = "R$ 3,33"
    /\ valor_numerico (B64.custo_total_combustivel r) = Some total
    /\ valor_numerico (B64.custo_por_pessoa_combustivel r) = Some por_pessoa
    /\ ~ por_pessoa == total / 3
    /\ ~ Qabs (por_pessoa * 3 - total) <= total * B64.tolerance
    /\ Qabs (por_pessoa * 3 - total) == 1 # 100.
Proof.
  eexists. exists 10.00, 3.33.
  split; [vm_compute; reflexivity|].
  repeat split; try (vm_compute; reflexivity); intro H; vm_compute in H;
    try discriminate H; apply H; reflexivity.
Qed.

(** C1 (amended).  For positive doubles, [calcular_combustivel] returns a
    result whose three computed fields are the two-decimal texts of
    fuelNeeded, totalCost and costPerTraveler, where fuelNeeded is the
    binary64 quotient distance / economy, totalCost the binary64 product
    fuelNeeded * price, and costPerTraveler the binary64 quotient totalCost /
    travelers.  For finite values in the normal range, fuelNeeded * economy
    is within [tolerance] (2^-53, relatively) of the distance and
    costPerTraveler * travelers within [tolerance] of totalCost. *)
Theorem calcular_combustivel_binary64 (d e p n : B64.double) :
  B64.gt0 d = true -> B64.gt0 e = true -> B64.gt0 p = true -> B64.gt0 n = true ->
  exists r fuelNeeded totalCost costPerTraveler,
    B64.calcular_combustivel d e p n = Returned (Some r)
    /\ fuelNeeded = B64.quot d e
    /\ totalCost = B64.mul fuelNeeded p
    /\ costPerTraveler = B64.quot totalCost n
    /\ B64.litros_necessarios r = B64.formatar_numero fuelNeeded " L"
    /\ B64.custo_total_combustivel r = B64.formatar_moeda totalCost
    /\ B64.custo_por_pessoa_combustivel r = B64.formatar_moeda costPerTraveler
    /\ (B64.is_finite d = true -> B64.is_finite e = true ->
        B64.is_finite fuelNeeded = true ->
        B64.pow2 (-1022) <= B64.value d / B64.value e ->
        Qabs (B64.value fuelNeeded * B64.value e - B64.value d)
        <= B64.value d * B64.tolerance)
    /\ (B64.is_finite totalCost = true -> B64.is_finite n = true ->
        B64.is_finite costPerTraveler = true ->
        B64.pow2 (-1022) <= B64.value totalCost / B64.value n ->
        Qabs (B64.value costPerTraveler * B64.value n - B64.value totalCost)
        <= B64.value totalCost * B64.tolerance).
Proof.
  intros Gd Ge Gp Gn.
  rewrite (b64_calcular_combustivel_valid d e p n)
    by (apply b64_gt0_le0; assumption).
  eexists. exists (B64.quot d e), (B64.mul (B64.quot d e) p),
    (B64.quot (B64.mul (B64.quot d e) p) n).
  split; [reflexivity|]. repeat (split; [reflexivity|]). split.
  - intros Fd Fe Ff Hn. apply b64_quot_error; assumption.
  - intros Ft Fn Fc Hn.
    assert (Vn : 0 < B64.value n).
    { pose proof (b64_gt0_mag n Gn Fn) as M.
      unfold B64.value. rewrite (b64_gt0_sign n Gn). exact M. }
    assert (Vt : 0 < B64.value (B64.mul (B64.quot d e) p)).
    { pose proof (pow2_pos (-1022)) as P.
      set (t := B64.value (B64.mul (B64.quot d e) p)) in *.
      assert (L : 0 < t / B64.value n) by lra.
      destruct (Qlt_le_dec 0 t) as [Hpos|Hneg]; [exact Hpos|].
      exfalso.
      assert (t / B64.value n <= 0).
      { unfold Qdiv. setoid_replace 0 with (0 * / B64.value n) by ring.
        apply Qmult_le_compat_r; [exact Hneg|].
        apply Qinv_le_0_compat. lra. }
      lra. }
    apply b64_quot_error; try assumption.
    apply b64_finite_pos_gt0; assumption.
Qed.

Lemma calcular_combustivel_binary64_witness :
  exists r fuelNeeded totalCost costPerTraveler,
    B64.calcular_combustivel
      (B64.of_Z 500) (B64.of_Z 12) (B64.of_Q 5.99) (B64.of_Z 2)
    = Returned (Some r)
    /\ fuelNeeded = B64.quot (B64.of_Z 500) (B64.of_Z 12)
    /\ totalCost = B64.mul fuelNeeded (B64.of_Q 5.99)
    /\ costPerTraveler = B64.quot totalCost (B64.of_Z 2)
    /\ B64.litros_necessarios r = "41,67 L"
    /\ B64.custo_total_combustivel r = "R$ 249,58"
    /\ B64.custo_por_pessoa_combustivel r = "R$ 124,79"
    /\ Qabs (B64.value fuelNeeded * 12 - 500) <= 500 * B64.tolerance
    /\ Qabs (B64.value costPerTraveler * 2 - B64.value totalCost)
       <= B64.value totalCost * B64.tolerance.
Proof.
  destruct (calcular_combustivel_binary64
              (B64.of_Z 500) (B64.of_Z 12) (B64.of_Q 5.99) (B64.of_Z 2))
    as (r & f & t & c & Hr & Hf & Ht & Hc & Hl & Htot & Hpp & T1 & T2);
    try reflexivity.
  exists r, f, t, c. subst f t c.
  split; [exact Hr|]. repeat (split; [reflexivity|]).
  split; [rewrite Hl; vm_compute; reflexivity|].
  split; [rewrite Htot; vm_compute; reflexivity|].
  split; [rewrite Hpp; vm_compute; reflexivity|].
  split.
  - apply T1; try reflexivity. vm_compute. discriminate.
  - apply T2; try reflexivity. vm_compute. discriminate.
Defined.

(** C5 (as stated, fails).  With distance 500, economy 12, price 5.99 and
    two travelers the total-cost field is the text ["R$ 249,58"], which
    reads 249.58, while the double it was formatted from is above
    249.5833. *)
Lemma combustivel_textos_arredondados :
  exists r total,
    B64.calcular_combustivel
      (B64.of_Z 500) (B64.of_Z 12) (B64.of_Q 5.99) (B64.of_Z 2)
    = Returned (Some r)
    /\ B64.litros_necessarios r = "41,67 L"
    /\ B64.custo_total_combustivel r = "R$ 249,58"
    /\ B64.custo_por_pessoa_combustivel r = "R$ 124,79"
    /\ valor_numerico (B64.custo_total_combustivel r) = Some total
    /\ total == 24958 # 100
    /\ ~ total
         == B64.value
              (B64.mul (B64.quot (B64.of_Z 500) (B64.of_Z 12)) (B64.of_Q 5.99))
    /\ 2495833 # 10000
       < B64.value
           (B64.mul (B64.quot (B64.of_Z 500) (B64.of_Z 12)) (B64.of_Q 5.99)).
Proof.
  eexists. exists 249.58.
  split; [vm_compute; reflexivity|].
  repeat split; try (vm_compute; reflexivity). intro H; vm_compute in H.
  discriminate H.
Qed.

(** C5 (amended).  For positive doubles whose three computed values are
    finite, the fields are formatted inside the calculator: the fuel needed
    is a count of hundredths written the Brazilian way (digits grouped with
    dots, a comma, two decimals) followed by [" L"], the two costs are
    ["R$ "] followed by such a text, and each count of hundredths is the
    computed double rounded to two decimals, ties to even. *)
Theorem calcular_combustivel_textos (d e p n : B64.double) :
  B64.gt0 d = true -> B64.gt0 e = true -> B64.gt0 p = true -> B64.gt0 n = true ->
  B64.is_finite (B64.quot d e) = true ->
  B64.is_finite (B64.mul (B64.quot d e) p) = true ->
  B64.is_finite (B64.quot (B64.mul (B64.quot d e) p) n) = true ->
  exists r c1 c2 c3,
    B64.calcular_combustivel d e p n = Returned (Some r)
    /\ B64.litros_necessarios r = B64.texto_br c1 ++ " L"
    /\ B64.custo_total_combustivel r = "R$ " ++ B64.texto_br c2
    /\ B64.custo_por_pessoa_combustivel r = "R$ " ++ B64.texto_br c3
    /\ (0 <= c1)%Z /\ (0 <= c2)%Z /\ (0 <= c3)%Z
    /\ inject_Z c1 / 100 == round_to 2 (B64.value (B64.quot d e))
    /\ inject_Z c2 / 100 == round_to 2 (B64.value (B64.mul (B64.quot d e) p))
    /\ inject_Z c3 / 100
       == round_to 2 (B64.value (B64.quot (B64.mul (B64.quot d e) p) n)).
Proof.
  intros Gd Ge Gp Gn F1 F2 F3.
  rewrite (b64_calcular_combustivel_valid d e p n)
    by (apply b64_gt0_le0; assumption).
  pose proof (b64_sign_quot d e (b64_gt0_sign d Gd) (b64_gt0_sign e Ge)) as S1.
  pose proof (b64_sign_mul _ p S1 (b64_gt0_sign p Gp)) as S2.
  pose proof (b64_sign_quot _ n S2 (b64_gt0_sign n Gn)) as S3.
  destruct (B64.quot d e) as [s1 m1| |] eqn:E1; try discriminate F1.
  destruct (B64.mul (B64.Fin s1 m1) p) as [s2 m2| |] eqn:E2; try discriminate F2.
  destruct (B64.quot (B64.Fin s2 m2) n) as [s3 m3| |] eqn:E3; try discriminate F3.
  cbn [B64.sign] in S1, S2, S3. subst s1 s2 s3.
  eexists. exists (cents m1), (cents m2), (cents m3).
  split; [reflexivity|].
  cbn [B64.litros_necessarios B64.custo_total_combustivel
       B64.custo_por_pessoa_combustivel].
  rewrite b64_formatar_numero_finite, !b64_formatar_moeda_finite.
  repeat split; try reflexivity; try apply cents_nonneg; apply cents_round_to.
Qed.

Lemma calcular_combustivel_textos_witness :
  exists r c1 c2 c3,
    B64.calcular_combustivel (B64.of_Z 1) (B64.of_Z 40) (B64.of_Z 1) (B64.of_Z 1)
    = Returned (Some r)
    /\ B64.litros_necessarios r = B64.texto_br c1 ++ " L"
    /\ B64.custo_total_combustivel r = "R$ " ++ B64.texto_br c2
    /\ B64.custo_por_pessoa_combustivel r = "R$ " ++ B64.texto_br c3
    /\ (0 <= c1)%Z /\ (0 <= c2)%Z /\ (0 <= c3)%Z
    /\ inject_Z c1 / 100
       == round_to 2 (B64.value (B64.quot (B64.of_Z 1) (B64.of_Z 40)))
    /\ inject_Z c2 / 100
       == round_to 2
            (B64.value (B64.mul (B64.quot (B64.of_Z 1) (B64.of_Z 40)) (B64.of_Z 1)))
    /\ inject_Z c3 / 100
       == round_to 2
            (B64.value
               (B64.quot
                  (B64.mul (B64.quot (B64.of_Z 1) (B64.of_Z 40)) (B64.of_Z 1))
                  (B64.of_Z 1)))
    /\ B64.litros_necessarios r = "0,03 L"
    /\ B64.custo_total_combustivel r = "R$ 0,03"
    /\ inject_Z c1 / 100 == 3 # 100.
Proof.
  destruct (calcular_combustivel_textos
              (B64.of_Z 1) (B64.of_Z 40) (B64.of_Z 1) (B64.of_Z 1))
    as (r & c1 & c2 & c3 & Hr & H1 & H2 & H3 & P1 & P2 & P3 & R1 & R2 & R3);
    try reflexivity.
  exists r, c1, c2, c3.
  repeat (split; [assumption|]).
  assert (E : B64.calcular_combustivel
                (B64.of_Z 1) (B64.of_Z 40) (B64.of_Z 1) (B64.of_Z 1)
              = Returned (Some {|
                  B64.distancia_total := B64.of_Z 1;
                  B64.litros_necessarios := "0,03 L";
                  B64.preco_combustivel := "R$ 1,00";
                  B64.custo_total_combustivel := "R$ 0,03";
                  B64.custo_por_pessoa_combustivel := "R$ 0,03";
                  B64.fuel_num_viajantes := B64.of_Z 1 |}))
    by (vm_compute; reflexivity).
  rewrite E in Hr. injection Hr as <-.
  split; [reflexivity|]. split; [reflexivity|].
  rewrite R1. vm_compute. reflexivity.
Defined.

(** The quotient 1/40 is a double just above 0.025: the fuel needed is shown
    as three hundredths. *)
Example combustivel_1_40 :
  exists r,
    B64.calcular_combustivel (B64.of_Z 1) (B64.of_Z 40) (B64.of_Z 1) (B64.of_Z 1)
    = Returned (Some r)
    /\ B64.litros_necessarios r = "0,03 L"
    /\ B64.custo_total_combustivel r = "R$ 0,03"
    /\ B64.custo_por_pessoa_combustivel r = "R$ 0,03".
Proof. eexists. split; [vm_compute; reflexivity|]. repeat split. Qed.

Example combustivel_11_20_6_4 :
  exists r,
    B64.calcular_combustivel (B64.of_Z 11) (B64.of_Z 20) (B64.of_Z 6) (B64.of_Z 4)
    = Returned (Some r)
    /\ B64.custo_total_combustivel r = "R$ 3,30"
    /\ B64.custo_por_pessoa_combustivel r = "R$ 0,83".
Proof. eexists. split; [vm_compute; reflexivity|]. repeat split. Qed.

(** ** Trip calculator in binary64 *)

(** C2 (as stated, fails).  One day, three travelers, lodging 10 per night
    and nothing else: the grand total is shown as ["R$ 10,00"] and the cost
    per traveler as ["R$ 3,33"], which is not the grand total divided by the
    traveler count. *)
Lemma viagem_por_pessoa_fora_da_tolerancia :
  exists r total por_pessoa,
    B64.calcular_custos_completos Py.upper "Paris"
      (B64.of_Z 1) (B64.of_Z 3) (B64.of_Z 10) (B64.of_Z 0) (B64.of_Z 0)
      (B64.of_Z 0) (B64.of_Z 0)
    = Returned (Some r)
    /\ B64.custo_total_final r = "R$ 10,00"
    /\ B64.custo_por_pessoa r = "R$ 3,33"
    /\ valor_numerico (B64.custo_total_final r) = Some total
    /\ valor_numerico (B64.custo_por_pessoa r) = Some por_pessoa
    /\ ~ por_pessoa == total / 3
    /\ Qabs (por_pessoa * 3 - total) == 1 # 100.
Proof.
  eexists. exists 10.00, 3.33.
  split; [vm_compute; reflexivity|].
  repeat split; try (vm_compute; reflexivity). intro H; vm_compute in H.
  discriminate H.
Qed.

(** C2 (amended).  For positive day and traveler counts,
    [calcular_custos_completos] returns a result whose seven money fields
    are the two-decimal texts of seven doubles that satisfy the seven
    equations with every operation the binary64 one, evaluated left to
    right, the reserve being subtotal * (percent / 100). *)
Theorem calcular_custos_completos_binary64
    (upper : string -> string) (destino : string)
    (dias n ac tr al atv pr : B64.double) :
  B64.gt0 dias = true -> B64.gt0 n = true ->
  exists r lodgingTotal foodTotal subtotal reserveAmount grandTotal
         costPerTraveler costPerTravelerPerDay,
    B64.calcular_custos_completos upper destino dias n ac tr al atv pr
    = Returned (Some r)
    /\ lodgingTotal = B64.mul ac dias
    /\ foodTotal = B64.mul (B64.mul al dias) n
    /\ subtotal = B64.add (B64.add (B64.add lodgingTotal tr) foodTotal) atv
    /\ reserveAmount = B64.mul subtotal (B64.quot pr (B64.of_Z 100))
    /\ grandTotal = B64.add subtotal reserveAmount
    /\ costPerTraveler = B64.quot grandTotal n
    /\ costPerTravelerPerDay = B64.quot costPerTraveler dias
    /\ B64.total_acomodacao r = B64.formatar_moeda lodgingTotal
    /\ B64.total_alimentacao r = B64.formatar_moeda foodTotal
    /\ B64.subtotal r = B64.formatar_moeda subtotal
    /\ B64.reserva r = B64.formatar_moeda reserveAmount
    /\ B64.custo_total_final r = B64.formatar_moeda grandTotal
    /\ B64.custo_por_pessoa r = B64.formatar_moeda costPerTraveler
    /\ B64.custo_por_dia_pessoa r = B64.formatar_moeda costPerTravelerPerDay.
Proof.
  intros Gd Gn.
  rewrite (b64_calcular_custos_completos_valid upper destino dias n ac tr al atv pr)
    by (apply b64_gt0_le0; assumption).
  eexists. do 7 eexists.
  split; [reflexivity|].
  repeat (split; [reflexivity|]). reflexivity.
Qed.

Lemma calcular_custos_completos_binary64_witness :
  exists r lodgingTotal foodTotal subtotal reserveAmount grandTotal
         costPerTraveler costPerTravelerPerDay,
    B64.calcular_custos_completos Py.upper "Paris"
      (B64.of_Z 7) (B64.of_Z 8) (B64.of_Z 300) (B64.of_Z 2500) (B64.of_Z 80)
      (B64.of_Z 500) (B64.of_Z 1)
    = Returned (Some r)
    /\ lodgingTotal = B64.mul (B64.of_Z 300) (B64.of_Z 7)
    /\ foodTotal = B64.mul (B64.mul (B64.of_Z 80) (B64.of_Z 7)) (B64.of_Z 8)
    /\ subtotal
       = B64.add (B64.add (B64.add lodgingTotal (B64.of_Z 2500)) foodTotal)
           (B64.of_Z 500)
    /\ reserveAmount = B64.mul subtotal (B64.quot (B64.of_Z 1) (B64.of_Z 100))
    /\ grandTotal = B64.add subtotal reserveAmount
    /\ costPerTraveler = B64.quot grandTotal (B64.of_Z 8)
    /\ costPerTravelerPerDay = B64.quot costPerTraveler (B64.of_Z 7)
    /\ B64.total_acomodacao r = "R$ 2.100,00"
    /\ B64.total_alimentacao r = "R$ 4.480,00"
    /\ B64.subtotal r = "R$ 9.580,00"
    /\ B64.reserva r = "R$ 95,80"
    /\ B64.custo_total_final r = "R$ 9.675,80"
    /\ B64.custo_por_pessoa r = "R$ 1.209,47"
    /\ B64.custo_por_dia_pessoa r = "R$ 172,78".
Proof.
  destruct (calcular_custos_completos_binary64 Py.upper "Paris"
              (B64.of_Z 7) (B64.of_Z 8) (B64.of_Z 300) (B64.of_Z 2500)
              (B64.of_Z 80) (B64.of_Z 500) (B64.of_Z 1))
    as (r & x1 & x2 & x3 & x4 & x5 & x6 & x7 & Hr & E1 & E2 & E3 & E4 & E5 & E6
        & E7 & F1 & F2 & F3 & F4 & F5 & F6 & F7); try reflexivity.
  exists r, x1, x2, x3, x4, x5, x6, x7.
  subst x1 x2 x3 x4 x5 x6 x7.
  split; [exact Hr|]. repeat (split; [reflexivity|]).
  rewrite F1, F2, F3, F4, F5, F6, F7.
  repeat split; vm_compute; reflexivity.
Defined.

(** C4.  [calcular_custos_completos] returns [None] exactly when the day
    count or the traveler count is at most zero.  Nothing else is checked:
    for positive counts a result comes back whatever the costs and the
    percentage are, its fields computed from them as they are; a negative
    transport or activities cost is shown with its minus sign and the
    percentage label is the percentage given. *)
Theorem calcular_custos_completos_gate
    (upper : string -> string) (destino : string)
    (dias n ac tr al atv pr : B64.double) :
  (B64.calcular_custos_completos upper destino dias n ac tr al atv pr
   = Returned None
   <-> B64.le0 dias = true \/ B64.le0 n = true)
  /\ (B64.gt0 dias = true -> B64.gt0 n = true ->
      exists r,
        B64.calcular_custos_completos upper destino dias n ac tr al atv pr
        = Returned (Some r)
        /\ r = B64.trip_record upper destino dias n ac tr al atv pr
        /\ B64.custo_transporte_total r = B64.formatar_moeda tr
        /\ B64.custo_atividades_total r = B64.formatar_moeda atv
        /\ B64.percentual_reserva r = B64.format_f false 0 pr ++ "%"
        /\ B64.total_acomodacao r = B64.formatar_moeda (B64.mul ac dias)
        /\ (forall m, tr = B64.Fin true m ->
            B64.custo_transporte_total r = "R$ -" ++ B64.texto_br (cents m))
        /\ (forall m, atv = B64.Fin true m ->
            B64.custo_atividades_total r = "R$ -" ++ B64.texto_br (cents m))).
Proof.
  split.
  - split.
    + intro H.
      destruct (B64.le0 dias) eqn:Ed; [left; reflexivity|].
      destruct (B64.le0 n) eqn:En; [right; reflexivity|].
      rewrite (b64_calcular_custos_completos_valid upper destino dias n
                 ac tr al atv pr Ed En) in H.
      discriminate H.
    + intro H. apply b64_calcular_custos_completos_invalid.
      destruct H as [-> | ->]; [reflexivity | apply orb_true_r].
  - intros Gd Gn.
    rewrite (b64_calcular_custos_completos_valid upper destino dias n ac tr al atv pr)
      by (apply b64_gt0_le0; assumption).
    eexists. split; [reflexivity|]. split; [reflexivity|].
    repeat (split; [reflexivity|]).
    split; intros m ->; cbn; apply (b64_formatar_moeda_finite true m).
Qed.

(** Negative lodging and a reserve of 150 percent are accepted; zero
    travelers are not. *)
Lemma calcular_custos_completos_gate_witness :
  (exists r,
      B64.calcular_custos_completos Py.upper "Paris"
        (B64.of_Z 7) (B64.of_Z 2) (B64.of_Z (-300)) (B64.of_Z 2500)
        (B64.of_Z 80) (B64.of_Z 500) (B64.of_Z 150)
      = Returned (Some r)
      /\ B64.total_acomodacao r = "R$ -2.100,00"
      /\ B64.percentual_reserva r = "150%"
      /\ B64.reserva r = "R$ 3.030,00")
  /\ B64.calcular_custos_completos Py.upper "Paris"
       (B64.of_Z 7) (B64.of_Z 0) (B64.of_Z 300) (B64.of_Z 2500)
       (B64.of_Z 80) (B64.of_Z 500) (B64.of_Z 10)
     = Returned None.
Proof.
  split.
  - destruct (proj2 (calcular_custos_completos_gate Py.upper "Paris"
                       (B64.of_Z 7) (B64.of_Z 2) (B64.of_Z (-300)) (B64.of_Z 2500)
                       (B64.of_Z 80) (B64.of_Z 500) (B64.of_Z 150)))
      as (r & Hr & Er & _); try reflexivity.
    exists r. split; [exact Hr|]. subst r. repeat split; vm_compute; reflexivity.
  - apply (proj1 (calcular_custos_completos_gate Py.upper "Paris"
                    (B64.of_Z 7) (B64.of_Z 0) (B64.of_Z 300) (B64.of_Z 2500)
                    (B64.of_Z 80) (B64.of_Z 500) (B64.of_Z 10))).
    right. reflexivity.
Defined.

(** Ties, signed zeros and large amounts, as the program computes them. *)
Example viagem_7_8_um_por_cento :
  exists r,
    B64.calcular_custos_completos Py.upper "Paris"
      (B64.of_Z 7) (B64.of_Z 8) (B64.of_Z 300) (B64.of_Z 2500) (B64.of_Z 80)
      (B64.of_Z 500) (B64.of_Z 1)
    = Returned (Some r)
    /\ B64.custo_total_final r = "R$ 9.675,80"
    /\ B64.custo_por_pessoa r = "R$ 1.209,47".
Proof. eexists. split; [vm_compute; reflexivity|]. repeat split. Qed.

Example viagem_reserva_negativa_de_zero :
  exists r,
    B64.calcular_custos_completos Py.upper "Paris"
      (B64.of_Z 1) (B64.of_Z 1) (B64.of_Z 0) (B64.of_Z 0) (B64.of_Z 0)
      (B64.of_Z 0) (B64.of_Z (-10))
    = Returned (Some r)
    /\ B64.reserva r = "R$ -0,00"
    /\ B64.custo_total_final r = "R$ 0,00".
Proof. eexists. split; [vm_compute; reflexivity|]. repeat split. Qed.

Example viagem_grande_mais_um :
  exists r,
    B64.calcular_custos_completos Py.upper "Paris"
      (B64.of_Z 1) (B64.of_Z 1) (B64.of_Q 1e16) (B64.of_Z 1) (B64.of_Z 0)
      (B64.of_Z 0) (B64.of_Z 0)
    = Returned (Some r)
    /\ B64.custo_transporte_total r = "R$ 1,00"
    /\ B64.custo_total_final r = "R$ 10.000.000.000.000.000,00".
Proof. eexists. split; [vm_compute; reflexivity|]. repeat split. Qed.

(** ** The destination *)

Lemma upper_char_capital (c : ascii) :
  if is_lower c
  then nat_of_ascii (Py.upper_char c) = (nat_of_ascii c - 32)%nat
  else Py.upper_char c = c.
Proof. destruct c as [[] [] [] [] [] [] [] []]; reflexivity. Qed.

Lemma upper_capital_form (s : string) : capital_form s (Py.upper s).
Proof.
  induction s as [|c s IH]; [exact I|].
  cbn [Py.upper capital_form]. split; [apply upper_char_capital | exact IH].
Qed.

Lemma upper_char_ascii (c : ascii) :
  is_ascii c = true -> is_ascii (Py.upper_char c) = true.
Proof.
  destruct c as [[] [] [] [] [] [] [] []]; intro H; try discriminate H;
    reflexivity.
Qed.

Lemma upper_ascii (s : string) :
  all_chars is_ascii s = true -> all_chars is_ascii (Py.upper s) = true.
Proof.
  induction s as [|c s IH]; [reflexivity|].
  cbn [Py.upper all_chars]. intro H. apply andb_prop in H. destruct H as [Hc Hs].
  rewrite (upper_char_ascii c Hc), (IH Hs). reflexivity.
Qed.

(** C9.  For positive day and traveler counts the [destino] field of the
    result is [str.upper] of the destination given; for an ASCII
    destination that is the same text with every letter a-z replaced by its
    capital and every other character kept.  The destination reaches no
    other field: with another destination the other twelve fields are the
    same. *)
Theorem destino_em_maiusculas_binary64
    (upper : string -> string) (destino : string)
    (dias n ac tr al atv pr : B64.double) :
  (forall s, all_chars is_ascii s = true -> upper s = Py.upper s) ->
  B64.gt0 dias = true -> B64.gt0 n = true ->
  exists r,
    B64.calcular_custos_completos upper destino dias n ac tr al atv pr
    = Returned (Some r)
    /\ B64.destino r = upper destino
    /\ (all_chars is_ascii destino = true ->
        capital_form destino (B64.destino r))
    /\ forall outro : string,
        exists r',
          B64.calcular_custos_completos upper outro dias n ac tr al atv pr
          = Returned (Some r')
          /\ B64.destino r' = upper outro
          /\ B64.same_but_destino r r'.
Proof.
  intros Hup Gd Gn.
  rewrite (b64_calcular_custos_completos_valid upper destino dias n ac tr al atv pr)
    by (apply b64_gt0_le0; assumption).
  eexists. split; [reflexivity|]. split; [reflexivity|]. split.
  - intro Ha. cbn [B64.trip_record B64.destino]. rewrite (Hup destino Ha).
    apply upper_capital_form.
  - intro outro.
    rewrite (b64_calcular_custos_completos_valid upper outro dias n ac tr al atv pr)
      by (apply b64_gt0_le0; assumption).
    eexists. split; [reflexivity|]. split; [reflexivity|].
    unfold B64.same_but_destino. repeat split.
Qed.

Lemma destino_em_maiusculas_binary64_witness :
  exists r,
    B64.calcular_custos_completos Py.upper "Paris, rio-2"
      (B64.of_Z 7) (B64.of_Z 2) (B64.of_Z 300) (B64.of_Z 2500) (B64.of_Z 80)
      (B64.of_Z 500) (B64.of_Z 10)
    = Returned (Some r)
    /\ B64.destino r = "PARIS, RIO-2"
    /\ capital_form "Paris, rio-2" (B64.destino r)
    /\ exists r',
        B64.calcular_custos_completos Py.upper "lisboa"
          (B64.of_Z 7) (B64.of_Z 2) (B64.of_Z 300) (B64.of_Z 2500) (B64.of_Z 80)
          (B64.of_Z 500) (B64.of_Z 10)
        = Returned (Some r')
        /\ B64.destino r' = "LISBOA"
        /\ B64.same_but_destino r r'.
Proof.
  destruct (destino_em_maiusculas_binary64 Py.upper "Paris, rio-2"
              (B64.of_Z 7) (B64.of_Z 2) (B64.of_Z 300) (B64.of_Z 2500)
              (B64.of_Z 80) (B64.of_Z 500) (B64.of_Z 10))
    as (r & Hr & Hd & Hc & Ho); try reflexivity.
  exists r. split; [exact Hr|]. split; [rewrite Hd; reflexivity|].
  split; [apply Hc; reflexivity|].
  destruct (Ho "lisboa") as (r' & Hr' & Hd' & Hs).
  exists r'. split; [exact Hr'|]. split; [rewrite Hd'; reflexivity|]. exact Hs.
Defined.

(** X16.  For an ASCII destination, the destination of the result has no
    lower-case ASCII letter, and giving it back to the calculator returns
    the very same result: the normalisation is idempotent. *)
Theorem destino_normalizado_binary64
    (upper : string -> string) (destino : string)
    (dias n ac tr al atv pr : B64.double) :
  (forall s, all_chars is_ascii s = true -> upper s = Py.upper s) ->
  all_chars is_ascii destino = true ->
  B64.gt0 dias = true -> B64.gt0 n = true ->
  exists r,
    B64.calcular_custos_completos upper destino dias n ac tr al atv pr
    = Returned (Some r)
    /\ all_chars (fun c => negb (is_lower c)) (B64.destino r) = true
    /\ B64.calcular_custos_completos upper (B64.destino r) dias n ac tr al atv pr
       = Returned (Some r).
Proof.
  intros Hup Ha Gd Gn.
  rewrite (b64_calcular_custos_completos_valid upper destino dias n ac tr al atv pr)
    by (apply b64_gt0_le0; assumption).
  eexists. split; [reflexivity|].
  cbn [B64.trip_record B64.destino]. rewrite (Hup destino Ha).
  split; [apply upper_no_lower|].
  rewrite (b64_calcular_custos_completos_valid upper _ dias n ac tr al atv pr)
    by (apply b64_gt0_le0; assumption).
  unfold B64.trip_record.
  rewrite (Hup (Py.upper destino) (upper_ascii destino Ha)), upper_idempotent,
    (Hup destino Ha).
  reflexivity.
Qed.

Lemma destino_normalizado_binary64_witness :
  exists r,
    B64.calcular_custos_completos Py.upper "Paris"
      (B64.of_Z 7) (B64.of_Z 2) (B64.of_Z 300) (B64.of_Z 2500) (B64.of_Z 80)
      (B64.of_Z 500) (B64.of_Z 10)
    = Returned (Some r)
    /\ all_chars (fun c => negb (is_lower c)) (B64.destino r) = true
    /\ B64.calcular_custos_completos Py.upper (B64.destino r)
         (B64.of_Z 7) (B64.of_Z 2) (B64.of_Z 300) (B64.of_Z 2500) (B64.of_Z 80)
         (B64.of_Z 500) (B64.of_Z 10)
       = Returned (Some r).
Proof.
  apply (destino_normalizado_binary64 Py.upper "Paris"); reflexivity.
Defined.

(** ** Formatting doubles *)

(** X4.  A finite double whose value is a whole number [z >= 0] is written
    as ["R$ "], a minus sign when its sign bit is set (so also for -0.0),
    its digits grouped by three with dots, and [",00"]. *)
Theorem formatar_moeda_inteiro_binary64 (s : bool) (z : Z) :
  (0 <= z)%Z ->
  B64.formatar_moeda (B64.Fin s (inject_Z z))
  = "R$ " ++ (if s then "-" else "")
    ++ Py.group_by3 "." (Py.digits z) ++ ",00".
Proof.
  intro Hz. rewrite b64_formatar_moeda_finite, (cents_Z z Hz).
  unfold B64.texto_br. rewrite Z.div_mul, Z.mod_mul by discriminate.
  reflexivity.
Qed.

Lemma formatar_moeda_inteiro_binary64_witness :
  B64.formatar_moeda (B64.Fin false (inject_Z 6842))
  = "R$ " ++ "" ++ Py.group_by3 "." (Py.digits 6842) ++ ",00"
  /\ B64.formatar_moeda (B64.Fin true (inject_Z 0)) = "R$ -0,00".
Proof.
  split.
  - apply (formatar_moeda_inteiro_binary64 false 6842). discriminate.
  - apply (formatar_moeda_inteiro_binary64 true 0). discriminate.
Defined.

(** X5.  A finite double closer to zero than half a hundredth is written as
    zero, with a minus sign exactly when its sign bit is set: ["R$ -0,00"]
    for a small negative amount and for -0.0. *)
Theorem formatar_moeda_quase_zero_binary64 (s : bool) (m : Q) :
  Qabs m < 1 # 200 ->
  B64.formatar_moeda (B64.Fin s m) = if s then "R$ -0,00" else "R$ 0,00".
Proof.
  intro H. rewrite b64_formatar_moeda_finite.
  assert (C : cents m = 0%Z).
  { unfold cents. apply round_half_even_small.
    - apply Qmult_le_0_compat; [apply Qabs_nonneg|discriminate].
    - change (inject_Z (10 ^ Z.of_nat 2)) with 100. lra. }
  rewrite C. destruct s; reflexivity.
Qed.

Lemma formatar_moeda_quase_zero_binary64_witness :
  B64.formatar_moeda (B64.of_Q (- (4 # 1000))) = "R$ -0,00"
  /\ B64.formatar_moeda (B64.Fin true 0) = "R$ -0,00"
  /\ B64.formatar_moeda (B64.of_Q (4 # 1000)) = "R$ 0,00".
Proof.
  split; [|split].
  - apply (formatar_moeda_quase_zero_binary64 true
             (B64.mag (B64.of_Q (- (4 # 1000))))).
    vm_compute. reflexivity.
  - apply (formatar_moeda_quase_zero_binary64 true 0). reflexivity.
  - apply (formatar_moeda_quase_zero_binary64 false
             (B64.mag (B64.of_Q (4 # 1000)))).
    vm_compute. reflexivity.
Defined.

Lemma b64_formatar_moeda_sem_sinal (x : B64.double) :
  B64.sign x = false -> all_chars (not_char "-") (B64.formatar_moeda x) = true.
Proof.
  destruct x as [s m|s|]; cbn [B64.sign]; intro H; subst;
    [|reflexivity|reflexivity].
  rewrite b64_formatar_moeda_finite.
  change ("R$ " ++ "" ++ B64.texto_br (cents m))
    with (money_string "R$ " "" "." ","
            (Py.digits (cents m / 100)) (Py.digits_fixed 2 (cents m mod 100) "")).
  apply all_chars_money; try reflexivity.
  - apply not_char_digit. reflexivity.
  - apply digits_digits.
  - apply digits_fixed_2_digits.
Qed.

(** ** The trip form and the chart, in binary64 *)

(** X14.  With positive day and traveler counts, if no cost and not the
    percentage has its sign bit set (none is negative, none is -0.0), the
    trip calculator returns a result and none of its nine money fields
    carries a minus sign. *)
Theorem viagem_sem_sinal_binary64
    (upper : string -> string) (destino : string)
    (dias n ac tr al atv pr : B64.double) :
  B64.gt0 dias = true -> B64.gt0 n = true ->
  B64.sign ac = false -> B64.sign tr = false -> B64.sign al = false ->
  B64.sign atv = false -> B64.sign pr = false ->
  exists r,
    B64.calcular_custos_completos upper destino dias n ac tr al atv pr
    = Returned (Some r)
    /\ Forall (fun s => all_chars (not_char "-") s = true)
         [ B64.total_acomodacao r; B64.total_alimentacao r;
           B64.custo_transporte_total r; B64.custo_atividades_total r;
           B64.subtotal r; B64.reserva r; B64.custo_total_final r;
           B64.custo_por_pessoa r; B64.custo_por_dia_pessoa r ].
Proof.
  intros Gd Gn Sac Str Sal Satv Spr.
  rewrite (b64_calcular_custos_completos_valid upper destino dias n ac tr al atv pr)
    by (apply b64_gt0_le0; assumption).
  eexists. split; [reflexivity|].
  pose proof (b64_gt0_sign dias Gd) as Sd. pose proof (b64_gt0_sign n Gn) as Sn.
  assert (S1 : B64.sign (B64.mul ac dias) = false) by (apply b64_sign_mul; assumption).
  assert (S2 : B64.sign (B64.mul (B64.mul al dias) n) = false)
    by (repeat apply b64_sign_mul; assumption).
  assert (S3 : B64.sign (B64.trip_subtotal dias n ac tr al atv) = false)
    by (unfold B64.trip_subtotal; repeat apply b64_sign_add; assumption).
  assert (S4 : B64.sign (B64.mul (B64.trip_subtotal dias n ac tr al atv)
                           (B64.quot pr (B64.of_Z 100))) = false).
  { apply b64_sign_mul; [exact S3|]. apply b64_sign_quot; [exact Spr|reflexivity]. }
  assert (S5 : B64.sign (B64.trip_total dias n ac tr al atv pr) = false)
    by (unfold B64.trip_total; cbv zeta; apply b64_sign_add; assumption).
  assert (S6 : B64.sign (B64.quot (B64.trip_total dias n ac tr al atv pr) n) = false)
    by (apply b64_sign_quot; assumption).
  assert (S7 : B64.sign (B64.quot (B64.quot (B64.trip_total dias n ac tr al atv pr) n)
                           dias) = false)
    by (apply b64_sign_quot; assumption).
  unfold B64.trip_record.
  cbn [B64.total_acomodacao B64.total_alimentacao B64.custo_transporte_total
       B64.custo_atividades_total B64.subtotal B64.reserva
       B64.custo_total_final B64.custo_por_pessoa B64.custo_por_dia_pessoa].
  repeat (apply Forall_cons; [apply b64_formatar_moeda_sem_sinal; assumption|]).
  apply Forall_nil.
Qed.

Lemma viagem_sem_sinal_binary64_witness :
  exists r,
    B64.calcular_custos_completos Py.upper "Paris"
      (B64.of_Z 7) (B64.of_Z 2) (B64.of_Z 300) (B64.of_Z 2500) (B64.of_Z 80)
      (B64.of_Z 500) (B64.of_Z 10)
    = Returned (Some r)
    /\ Forall (fun s => all_chars (not_char "-") s = true)
         [ B64.total_acomodacao r; B64.total_alimentacao r;
           B64.custo_transporte_total r; B64.custo_atividades_total r;
           B64.subtotal r; B64.reserva r; B64.custo_total_final r;
           B64.custo_por_pessoa r; B64.custo_por_dia_pessoa r ].
Proof.
  apply (viagem_sem_sinal_binary64 Py.upper "Paris"); reflexivity.
Defined.

(** A cost of -0.0 passes the test [0 <= x] and is shown with a minus
    sign. *)
Example viagem_acomodacao_zero_negativo :
  exists r,
    B64.calcular_custos_completos Py.upper "Paris"
      (B64.of_Z 1) (B64.of_Z 1) (B64.Fin true 0) (B64.of_Z 0) (B64.of_Z 0)
      (B64.of_Z 0) (B64.of_Z 0)
    = Returned (Some r)
    /\ B64.total_acomodacao r = "R$ -0,00".
Proof. eexists. split; [vm_compute; reflexivity|]. reflexivity. Qed.

(** X8.  For positive day and traveler counts and finite amounts, the five
    values the chart plots are, in order, the doubles computed for lodging,
    transport, food, activities and reserve, each rounded to two
    decimals. *)
Theorem valores_numericos_binary64
    (upper : string -> string) (destino : string)
    (dias n ac tr al atv pr : B64.double) :
  B64.gt0 dias = true -> B64.gt0 n = true ->
  B64.is_finite (B64.mul ac dias) = true ->
  B64.is_finite tr = true ->
  B64.is_finite (B64.mul (B64.mul al dias) n) = true ->
  B64.is_finite atv = true ->
  B64.is_finite (B64.mul (B64.trip_subtotal dias n ac tr al atv)
                   (B64.quot pr (B64.of_Z 100))) = true ->
  exists r q1 q2 q3 q4 q5,
    B64.calcular_custos_completos upper destino dias n ac tr al atv pr
    = Returned (Some r)
    /\ B64.valores_numericos r = [Some q1; Some q2; Some q3; Some q4; Some q5]
    /\ q1 == round_to 2 (B64.value (B64.mul ac dias))
    /\ q2 == round_to 2 (B64.value tr)
    /\ q3 == round_to 2 (B64.value (B64.mul (B64.mul al dias) n))
    /\ q4 == round_to 2 (B64.value atv)
    /\ q5 == round_to 2
               (B64.value (B64.mul (B64.trip_subtotal dias n ac tr al atv)
                             (B64.quot pr (B64.of_Z 100)))).
Proof.
  intros Gd Gn F1 F2 F3 F4 F5.
  rewrite (b64_calcular_custos_completos_valid upper destino dias n ac tr al atv pr)
    by (apply b64_gt0_le0; assumption).
  unfold B64.valores_numericos, B64.trip_record.
  cbn [B64.total_acomodacao B64.custo_transporte_total B64.total_alimentacao
       B64.custo_atividades_total B64.reserva].
  destruct (B64.mul ac dias) as [s1 m1| |]; try discriminate F1.
  destruct tr as [s2 m2| |]; try discriminate F2.
  destruct (B64.mul (B64.mul al dias) n) as [s3 m3| |]; try discriminate F3.
  destruct atv as [s4 m4| |]; try discriminate F4.
  destruct (B64.mul _ (B64.quot pr (B64.of_Z 100))) as [s5 m5| |];
    try discriminate F5.
  destruct (b64_valor_numerico_formatar_moeda s1 m1) as [q1 [H1 R1]].
  destruct (b64_valor_numerico_formatar_moeda s2 m2) as [q2 [H2 R2]].
  destruct (b64_valor_numerico_formatar_moeda s3 m3) as [q3 [H3 R3]].
  destruct (b64_valor_numerico_formatar_moeda s4 m4) as [q4 [H4 R4]].
  destruct (b64_valor_numerico_formatar_moeda s5 m5) as [q5 [H5 R5]].
  eexists. exists q1, q2, q3, q4, q5.
  split; [reflexivity|].
  unfold B64.valores_numericos.
  cbn [B64.total_acomodacao B64.custo_transporte_total B64.total_alimentacao
       B64.custo_atividades_total B64.reserva].
  rewrite H1, H2, H3, H4, H5. repeat split; assumption.
Qed.

Lemma valores_numericos_binary64_witness :
  exists r q1 q2 q3 q4 q5,
    B64.calcular_custos_completos Py.upper "Paris"
      (B64.of_Z 1) (B64.of_Z 1) (B64.of_Q 0.5) (B64.of_Z 0) (B64.of_Z 0)
      (B64.of_Z 0) (B64.of_Z 1)
    = Returned (Some r)
    /\ B64.valores_numericos r = [Some q1; Some q2; Some q3; Some q4; Some q5]
    /\ q1 == 1 # 2 /\ q2 == 0 /\ q3 == 0 /\ q4 == 0 /\ q5 == 1 # 100.
Proof.
  destruct (valores_numericos_binary64 Py.upper "Paris"
              (B64.of_Z 1) (B64.of_Z 1) (B64.of_Q 0.5) (B64.of_Z 0) (B64.of_Z 0)
              (B64.of_Z 0) (B64.of_Z 1))
    as (r & q1 & q2 & q3 & q4 & q5 & Hr & Hv & R1 & R2 & R3 & R4 & R5);
    try reflexivity.
  exists r, q1, q2, q3, q4, q5. split; [exact Hr|]. split; [exact Hv|].
  rewrite R1, R2, R3, R4, R5. repeat split; vm_compute; reflexivity.
Defined.

(** ** The gate and the divisions once more, in binary64

    What was shown over exact rationals holds with the arithmetic of the
    program too.  NaN is neither [<= 0] nor [> 0]: it passes the gate, and a
    division by NaN raises nothing. *)

Lemma b64_calcular_combustivel_gate (d e p n : B64.double) :
  (B64.calcular_combustivel d e p n = Returned None
   <-> B64.le0 d = true \/ B64.le0 e = true \/ B64.le0 p = true
       \/ B64.le0 n = true)
  /\ (B64.gt0 d = true -> B64.gt0 e = true -> B64.gt0 p = true ->
      B64.gt0 n = true ->
      exists r, B64.calcular_combustivel d e p n = Returned (Some r)).
Proof.
  split.
  - split.
    + intro H.
      destruct (B64.le0 d) eqn:Ed; [auto|].
      destruct (B64.le0 e) eqn:Ee; [auto|].
      destruct (B64.le0 p) eqn:Ep; [auto|].
      destruct (B64.le0 n) eqn:En; [auto|].
      rewrite (b64_calcular_combustivel_valid d e p n Ed Ee Ep En) in H.
      discriminate H.
    + intro H. apply b64_calcular_combustivel_invalid.
      rewrite !Bool.orb_true_iff. tauto.
  - intros Gd Ge Gp Gn.
    rewrite (b64_calcular_combustivel_valid d e p n)
      by (apply b64_gt0_le0; assumption).
    eexists. reflexivity.
Qed.

Lemma b64_calcular_combustivel_returns (d e p n : B64.double) :
  exists o, B64.calcular_combustivel d e p n = Returned o.
Proof.
  destruct (B64.le0 d || B64.le0 e || B64.le0 p || B64.le0 n) eqn:G.
  - exists None. apply b64_calcular_combustivel_invalid. exact G.
  - rewrite !Bool.orb_false_iff in G. destruct G as [[[Ed Ee] Ep] En].
    rewrite (b64_calcular_combustivel_valid d e p n Ed Ee Ep En).
    eexists. reflexivity.
Qed.

Lemma b64_calcular_custos_completos_returns
    (upper : string -> string) (destino : string)
    (dias n ac tr al atv pr : B64.double) :
  exists o,
    B64.calcular_custos_completos upper destino dias n ac tr al atv pr
    = Returned o.
Proof.
  destruct (B64.le0 dias || B64.le0 n) eqn:G.
  - exists None. apply b64_calcular_custos_completos_invalid. exact G.
  - rewrite Bool.orb_false_iff in G. destruct G as [Ed En].
    rewrite (b64_calcular_custos_completos_valid upper destino dias n
               ac tr al atv pr Ed En).
    eexists. reflexivity.
Qed.

Example combustivel_nan_passa :
  exists r,
    B64.calcular_combustivel (B64.of_Z 1) B64.NaN (B64.of_Z 1) (B64.of_Z 1)
    = Returned (Some r)
    /\ B64.litros_necessarios r = "nan L".
Proof. eexists. split; [vm_compute; reflexivity|]. reflexivity. Qed.
